(** * AgET_TG: a verification development for the Telegram crypto bot

    The bot exists in two deployment variants, [src/aget_tg.py] (webhook)
    and [src/aget_tg_v1.py] (polling).  This file embeds the rate limiter,
    the cached price lookup client, the assistant query client and the
    message router of both variants and proves the properties the
    specification states about them.

    Modelling conventions.
    - The file holds two embeddings of the same functions.  The first
      ([Webhook], [Polling]) idealises the data: text is a list of ASCII
      characters ([str]), the clock and the prices are rationals ([Q]).
      It carries the properties that depend neither on the alphabet nor
      on the rounding of floats: the cache, the shape of the replies,
      the bookkeeping of the limiter, the comparison of the variants.
    - The second ([WebhookPy], [PollingPy]) keeps Python's data: a string
      is a list of code points, with the Unicode tables behind
      [str.lower], [str.upper] and [str.isspace] taken as given; a clock
      reading is a binary64 float and [current_time - t] is the rounded
      subtraction; a JSON number is an integer or a float.  It carries
      the contract of the limiter, the router and the length check of
      the assistant client, which do depend on them.
    - Dictionaries are [gmap]s; the [lru_cache] is a recency-ordered
      association list, most recently used first.
    - The remote services are oracles handed to each call; every request
      that is really issued is appended to a log kept in the [World].
    - The transport (the webhook route, the polling loop, [main]) and the
      reading of the environment are not part of the embedding. *)

From Stdlib Require Import ZArith QArith Qabs Ascii String List Lia Lqa.
From Stdlib Require Import DecimalString.
From Stdlib Require Import PrimFloat SpecFloat FloatOps Sorted.
From stdpp Require Import gmap strings list.

Import ListNotations.
#[local] Set Warnings "-inexact-float".
Local Open Scope Z_scope.
Local Open Scope list_scope.

(** ** Text *)

Module Text.

Abbreviation str := (list ascii).

Definition lit (s : string) : str := list_ascii_of_string s.

(** [str.lower()] and [str.upper()] on ASCII text. *)
Definition lower_char (c : ascii) : ascii :=
  let n := nat_of_ascii c in
  if ((65 <=? n) && (n <=? 90))%nat then ascii_of_nat (n + 32) else c.

Definition upper_char (c : ascii) : ascii :=
  let n := nat_of_ascii c in
  if ((97 <=? n) && (n <=? 122))%nat then ascii_of_nat (n - 32) else c.

Definition lower (s : str) : str := map lower_char s.
Definition upper (s : str) : str := map upper_char s.

(** [str.isspace()] for one ASCII character: tab, line feed, vertical
    tab, form feed, carriage return, the four separators 28..31 and
    the space. *)
Definition is_space (c : ascii) : bool :=
  let n := nat_of_ascii c in
  (((9 <=? n) && (n <=? 13)) || ((28 <=? n) && (n <=? 32)))%nat.

Fixpoint lstrip (s : str) : str :=
  match s with
  | [] => []
  | c :: s' => if is_space c then lstrip s' else s
  end.

Definition rstrip (s : str) : str := rev (lstrip (rev s)).

(** [s.strip()] *)
Definition strip (s : str) : str := rstrip (lstrip s).

(** [s.startswith(p)] *)
Fixpoint starts_with (p s : str) : bool :=
  match p, s with
  | [], _ => true
  | _ :: _, [] => false
  | a :: p', b :: s' => Ascii.eqb a b && starts_with p' s'
  end.

(** [sub in s] *)
Fixpoint contains (sub s : str) : bool :=
  starts_with sub s ||
  match s with
  | [] => false
  | _ :: s' => contains sub s'
  end.

(** [s.split(sep)] for a non-empty [sep]: the text is scanned from the
    left; at an occurrence of [sep] the current piece is closed and the
    scan resumes after the occurrence ([skip] counts the characters of
    the occurrence still to be passed over). *)
Fixpoint split_go (sep : str) (skip : nat) (s : str) : list str :=
  match s with
  | [] => [[]]
  | c :: s' =>
      match skip with
      | S n => split_go sep n s'
      | O =>
          if starts_with sep s
          then [] :: split_go sep (length sep - 1) s'
          else match split_go sep 0 s' with
               | t :: ts => (c :: t) :: ts
               | [] => [[c]]
               end
      end
  end.

Definition split (sep s : str) : list str := split_go sep 0 s.

(** [l[-1]] on a list of strings that is never empty here. *)
Definition last_item (l : list str) : str := List.last l [].

(** [sep.join(l)] *)
Fixpoint join (sep : str) (l : list str) : str :=
  match l with
  | [] => []
  | x :: l' =>
      match l' with
      | [] => x
      | _ :: _ => x ++ sep ++ join sep l'
      end
  end.

(** The suffix that follows the last occurrence of [sep] in [s], found
    by looking at the later positions first.  This is the reading of
    "everything after the last occurrence"; it is compared with
    [split sep s] followed by [[-1]] below. *)
Fixpoint after_last (sep s : str) : option str :=
  match s with
  | [] => None
  | _ :: s' =>
      match after_last sep s' with
      | Some r => Some r
      | None => if starts_with sep s then Some (drop (length sep) s) else None
      end
  end.

(** [sep] has no border: no proper non-empty suffix of it is also a
    prefix of it, so two occurrences of [sep] never overlap. *)
Definition unbordered (sep : str) : bool :=
  forallb (fun d => negb (starts_with (drop d sep) sep))
          (seq 1 (length sep - 1)).

End Text.

Import Text.

(** ** Numbers: [f"{price:.2f}"] *)

Module Fmt.

(** Correct rounding of [num / den] (with [0 <= num]) to an integer,
    ties to even, as the float formatter rounds the exact value. *)
Definition round_half_even (num : Z) (den : positive) : Z :=
  let q := num / Z.pos den in
  let r := num mod Z.pos den in
  match (2 * r) ?= Z.pos den with
  | Lt => q
  | Gt => q + 1
  | Eq => if Z.even q then q else q + 1
  end.

Definition digit (n : Z) : ascii := ascii_of_nat (48 + Z.to_nat (n mod 10)).

Definition decimal (n : Z) : str :=
  list_ascii_of_string (NilZero.string_of_uint (N.to_uint (Z.to_N n))).

(** [format(x, ".2f")]: sign, integer digits, a point, two digits. *)
Definition format_2f (x : Q) : str :=
  let cents := round_half_even (Z.abs (Qnum x) * 100) (Qden x) in
  (if Qnum x <? 0 then lit "-" else [])
    ++ decimal (cents / 100) ++ lit "." ++ [digit (cents / 10); digit cents].


End Fmt.

Import Fmt.

(** [x < y] on rationals, as a boolean. *)
Definition Qlt_bool (x y : Q) : bool := negb (Qle_bool y x).

(** ** The world the handlers act on *)

(** The body of a quote-service response: identifier -> (currency -> number). *)
Abbreviation quotes := (gmap str (gmap str Q)).

(** What [requests.get] followed by [raise_for_status] and [json] gives:
    the decoded body, or a [requests.RequestException]. *)
Inductive http_result :=
| HttpOk (body : quotes)
| RequestException.

(** The remote services as seen by one call: the quote service answers a
    GET by its [ids] parameter, the generation service answers a prompt
    or raises. *)
Record Services := {
  requests_get : str -> http_result;
  generate_content : str -> option str
}.

Record World := {
  price_cache : list (str * quotes);   (* the lru_cache, most recent first *)
  http_log : list str;                 (* [ids] of every GET issued *)
  gemini_log : list str;               (* prompt of every generation request *)
  sent : list str                      (* every [reply_text] *)
}.

Definition initial_world : World :=
  {| price_cache := []; http_log := []; gemini_log := []; sent := [] |}.

Definition set_cache (c : list (str * quotes)) (w : World) : World :=
  {| price_cache := c; http_log := http_log w;
     gemini_log := gemini_log w; sent := sent w |}.

Definition log_http (ids : str) (w : World) : World :=
  {| price_cache := price_cache w; http_log := http_log w ++ [ids];
     gemini_log := gemini_log w; sent := sent w |}.

Definition log_gemini (prompt : str) (w : World) : World :=
  {| price_cache := price_cache w; http_log := http_log w;
     gemini_log := gemini_log w ++ [prompt]; sent := sent w |}.

(** [update.message.reply_text(text)] *)
Definition reply_text (text : str) (w : World) : World :=
  {| price_cache := price_cache w; http_log := http_log w;
     gemini_log := gemini_log w; sent := sent w ++ [text] |}.

Record Update := {
  effective_user_id : Z;
  message_text : str
}.

Record Config := {
  RATE_LIMIT_WINDOW : Z;
  MAX_REQUESTS_PER_WINDOW : Z
}.

(** ** [functools.lru_cache(maxsize=100)] *)

Module Lru.

Definition maxsize : nat := 100.

Fixpoint find (k : str) (c : list (str * quotes)) : option quotes :=
  match c with
  | [] => None
  | (k', v) :: c' => if decide (k' = k) then Some v else find k c'
  end.

(** A hit moves the entry to the most recent position. *)
Definition touch (k : str) (v : quotes) (c : list (str * quotes))
  : list (str * quotes) :=
  (k, v) :: filter (fun p => p.1 <> k) c.

(** A miss stores the new entry as most recent; a full cache drops its
    least recently used entry. *)
Definition store (k : str) (v : quotes) (c : list (str * quotes))
  : list (str * quotes) :=
  take maxsize ((k, v) :: c).

End Lru.

(** ** Characters of the static texts outside ASCII *)

(** The rocket of the welcome text, U+1F680, and the open book of the
    help text, U+1F4D6, as their UTF-8 bytes. *)
Definition rocket : str := map ascii_of_nat [240; 159; 154; 128]%nat.
Definition open_book : str := map ascii_of_nat [240; 159; 147; 150]%nat.

(** ** The webhook variant, [src/aget_tg.py] *)

Module Webhook.

(** [rate_limit(func)]: the decorator.  [request_times] is the
    dictionary captured by the closure, one per decorated handler; the
    wrapper reads the event-loop clock ([current_time]) on entry.  The
    result is [None] on the early return and [Some] of the handler's
    result when the handler was called. *)
Definition wrapper {R : Type} (cfg : Config)
    (func : Update -> Services -> World -> World * R)
    (update : Update) (current_time : Q) (svc : Services)
    (request_times : gmap Z (list Q)) (w : World)
  : gmap Z (list Q) * World * option R :=
  let user_id := effective_user_id update in
  match request_times !! user_id with
  | Some times =>
      let recent_requests :=
        List.filter
          (fun t => Qlt_bool (current_time - t)
                             (inject_Z (RATE_LIMIT_WINDOW cfg)))
          times in
      if Z.of_nat (length recent_requests) >=? MAX_REQUESTS_PER_WINDOW cfg
      then
        (request_times,
         reply_text
           (lit "Too many requests. Please wait before sending more messages.")
           w,
         None)
      else
        let recent_requests := recent_requests ++ [current_time] in
        let '(w', r) := func update svc w in
        (<[user_id := recent_requests]> request_times, w', Some r)
  | None =>
      let '(w', r) := func update svc w in
      (<[user_id := [current_time]]> request_times, w', Some r)
  end.

Definition rate_limit {R : Type} := @wrapper R.

(** [get_cached_crypto_prices], wrapped by [lru_cache(maxsize=100)]:
    a hit returns the stored value without running the body; the body
    issues the GET and turns a [RequestException] into [{}]; whatever
    the body returns is stored. *)
Definition get_cached_crypto_prices (svc : Services) (crypto_ids : str)
    (w : World) : World * quotes :=
  match Lru.find crypto_ids (price_cache w) with
  | Some data =>
      (set_cache (Lru.touch crypto_ids data (price_cache w)) w, data)
  | None =>
      let w := log_http crypto_ids w in
      let data :=
        match requests_get svc crypto_ids with
        | HttpOk body => body
        | RequestException => ∅
        end in
      (set_cache (Lru.store crypto_ids data (price_cache w)) w, data)
  end.

(** The [for] loop of [get_crypto_prices]; [None] is the [KeyError] of
    [data[crypto_id]["usd"]]. *)
Fixpoint price_loop (data : quotes) (crypto_ids : list str)
    (prices : list str) : option (list str) :=
  match crypto_ids with
  | [] => Some prices
  | crypto_id :: rest =>
      let crypto_id := lower crypto_id in
      match data !! crypto_id with
      | Some entry =>
          match entry !! lit "usd" with
          | Some price =>
              price_loop data rest
                (prices ++ [upper crypto_id ++ lit ": $" ++ format_2f price
                              ++ lit " USD"])
          | None => None
          end
      | None => price_loop data rest prices
      end
  end.

Definition newline : str := [ascii_of_nat 10].

Definition get_crypto_prices (svc : Services) (crypto_ids : list str)
    (w : World) : World * str :=
  let crypto_str := lower (join (lit ",") crypto_ids) in
  let '(w, data) := get_cached_crypto_prices svc crypto_str w in
  match price_loop data crypto_ids [] with
  | Some prices =>
      (w, match prices with
          | [] => lit "No prices found."
          | _ :: _ => join newline prices
          end)
  | None => (w, lit "Price lookup failed.")
  end.

Definition system_prompt : str :=
  lit "You are AgET_TG, a friendly and knowledgeable AI assistant specializing in cryptocurrency, blockchain development and web3 technologies. "
  ++ lit "Your goal is to educate users and developers, provide accurate information, and assist with crypto-related queries. "
  ++ lit "Always respond in a clear, concise, and engaging manner. "
  ++ lit "If a user asks about cryptocurrency prices, fetch the latest data. "
  ++ lit "For educational questions, explain concepts in simple terms with examples. "
  ++ lit "Be proactive in suggesting related topics or resources. "
  ++ lit "Remember to maintain a professional yet approachable tone.".

Definition ask_gemini (svc : Services) (question : str) (w : World)
  : World * str :=
  if match question with [] => true | _ :: _ => false end
     || (1000 <? length question)%nat
  then (w, lit "Invalid query length.")
  else
    let prompt :=
      system_prompt ++ newline ++ newline ++ lit "User: " ++ question in
    let w := log_gemini prompt w in
    match generate_content svc prompt with
    | Some text => (w, text)
    | None => (w, lit "Query processing failed.")
    end.

(** The body of [handle_message], before decoration. *)
Definition handle_message (update : Update) (svc : Services) (w : World)
  : World * unit :=
  let user_message := lower (message_text update) in
  let '(w, response) :=
    if contains (lit "price of") user_message
    then
      let crypto_names :=
        split (lit ",")
              (strip (last_item (split (lit "price of") user_message))) in
      let crypto_names := map (fun name => lower (strip name)) crypto_names in
      get_crypto_prices svc crypto_names w
    else ask_gemini svc user_message w in
  (reply_text response w, tt).

(** [handle_message] as the dispatcher sees it, behind [@rate_limit]. *)
Definition limited_handle_message (cfg : Config) :=
  rate_limit cfg handle_message.

(** The body of [start], before decoration. *)
Definition start (update : Update) (svc : Services) (w : World)
  : World * unit :=
  let welcome_text :=
    lit "Hi, I'm AgET_TG, a web3 telegram bot! " ++ rocket
      ++ newline ++ newline
      ++ lit "Commands:" ++ newline
      ++ lit "- Ask crypto prices: 'price of bitcoin'" ++ newline
      ++ lit "- Explore blockchain concepts" ++ newline
      ++ lit "- Web3 technology queries" in
  (reply_text welcome_text w, tt).

(** The body of [help_command], before decoration. *)
Definition help_command (update : Update) (svc : Services) (w : World)
  : World * unit :=
  let help_text :=
    lit "AgET_TG Help " ++ open_book ++ newline ++ newline
      ++ lit "Price Queries:" ++ newline
      ++ lit "- 'price of bitcoin'" ++ newline
      ++ lit "- 'price of ethereum, solana'" ++ newline ++ newline
      ++ lit "Educational Queries:" ++ newline
      ++ lit "- 'Explain blockchain'" ++ newline
      ++ lit "- 'Smart contracts overview'" in
  (reply_text help_text w, tt).

End Webhook.
(** ** The polling variant, [src/aget_tg_v1.py] *)

Module Polling.

(** [rate_limit(func)]: the decorator.  [request_times] is the
    dictionary captured by the closure, one per decorated handler; the
    wrapper reads the event-loop clock ([current_time]) on entry.  The
    result is [None] on the early return and [Some] of the handler's
    result when the handler was called. *)
Definition wrapper {R : Type} (cfg : Config)
    (func : Update -> Services -> World -> World * R)
    (update : Update) (current_time : Q) (svc : Services)
    (request_times : gmap Z (list Q)) (w : World)
  : gmap Z (list Q) * World * option R :=
  let user_id := effective_user_id update in
  match request_times !! user_id with
  | Some times =>
      let recent_requests :=
        List.filter
          (fun t => Qlt_bool (current_time - t)
                             (inject_Z (RATE_LIMIT_WINDOW cfg)))
          times in
      if Z.of_nat (length recent_requests) >=? MAX_REQUESTS_PER_WINDOW cfg
      then
        (request_times,
         reply_text
           (lit "Too many requests. Please wait before sending more messages.")
           w,
         None)
      else
        let recent_requests := recent_requests ++ [current_time] in
        let '(w', r) := func update svc w in
        (<[user_id := recent_requests]> request_times, w', Some r)
  | None =>
      let '(w', r) := func update svc w in
      (<[user_id := [current_time]]> request_times, w', Some r)
  end.

Definition rate_limit {R : Type} := @wrapper R.

(** [get_cached_crypto_prices], wrapped by [lru_cache(maxsize=100)]:
    a hit returns the stored value without running the body; the body
    issues the GET and turns a [RequestException] into [{}]; whatever
    the body returns is stored. *)
Definition get_cached_crypto_prices (svc : Services) (crypto_ids : str)
    (w : World) : World * quotes :=
  match Lru.find crypto_ids (price_cache w) with
  | Some data =>
      (set_cache (Lru.touch crypto_ids data (price_cache w)) w, data)
  | None =>
      let w := log_http crypto_ids w in
      let data :=
        match requests_get svc crypto_ids with
        | HttpOk body => body
        | RequestException => ∅
        end in
      (set_cache (Lru.store crypto_ids data (price_cache w)) w, data)
  end.

(** The [for] loop of [get_crypto_prices]; [None] is the [KeyError] of
    [data[crypto_id]["usd"]]. *)
Fixpoint price_loop (data : quotes) (crypto_ids : list str)
    (prices : list str) : option (list str) :=
  match crypto_ids with
  | [] => Some prices
  | crypto_id :: rest =>
      let crypto_id := lower crypto_id in
      match data !! crypto_id with
      | Some entry =>
          match entry !! lit "usd" with
          | Some price =>
              price_loop data rest
                (prices ++ [upper crypto_id ++ lit ": $" ++ format_2f price
                              ++ lit " USD"])
          | None => None
          end
      | None => price_loop data rest prices
      end
  end.

Definition newline : str := [ascii_of_nat 10].

Definition get_crypto_prices (svc : Services) (crypto_ids : list str)
    (w : World) : World * str :=
  let crypto_str := lower (join (lit ",") crypto_ids) in
  let '(w, data) := get_cached_crypto_prices svc crypto_str w in
  match price_loop data crypto_ids [] with
  | Some prices =>
      (w, match prices with
          | [] => lit "No prices found."
          | _ :: _ => join newline prices
          end)
  | None => (w, lit "Price lookup failed.")
  end.

Definition system_prompt : str :=
  lit "You are AgET_TG, a friendly and knowledgeable AI assistant specializing in cryptocurrency, blockchain development and web3 technologies. "
  ++ lit "Your goal is to educate users and developers, provide accurate information, and assist with crypto-related queries. "
  ++ lit "Always respond in a clear, concise, and engaging manner. "
  ++ lit "If a user asks about cryptocurrency prices, fetch the latest data. "
  ++ lit "For educational questions, explain concepts in simple terms with examples. "
  ++ lit "Be proactive in suggesting related topics or resources. "
  ++ lit "Remember to maintain a professional yet approachable tone.".

Definition ask_gemini (svc : Services) (question : str) (w : World)
  : World * str :=
  if match question with [] => true | _ :: _ => false end
     || (1000 <? length question)%nat
  then (w, lit "Invalid query length.")
  else
    let prompt :=
      system_prompt ++ newline ++ newline ++ lit "User: " ++ question in
    let w := log_gemini prompt w in
    match generate_content svc prompt with
    | Some text => (w, text)
    | None => (w, lit "Gemini query processing failed.")
    end.

(** The body of [handle_message], before decoration. *)
Definition handle_message (update : Update) (svc : Services) (w : World)
  : World * unit :=
  let user_message := lower (message_text update) in
  let '(w, response) :=
    if contains (lit "price of") user_message
    then
      let crypto_names :=
        split (lit ",")
              (strip (last_item (split (lit "price of") user_message))) in
      let crypto_names := map (fun name => lower (strip name)) crypto_names in
      get_crypto_prices svc crypto_names w
    else ask_gemini svc user_message w in
  (reply_text response w, tt).

(** [handle_message] as the dispatcher sees it, behind [@rate_limit]. *)
Definition limited_handle_message (cfg : Config) :=
  rate_limit cfg handle_message.

(** The body of [start], before decoration. *)
Definition start (update : Update) (svc : Services) (w : World)
  : World * unit :=
  let welcome_text :=
    lit "Hi, I'm AgET_TG, a web3 telegram bot! " ++ rocket
      ++ newline ++ newline
      ++ lit "Commands:" ++ newline
      ++ lit "- Ask about crypto prices: 'price of bitcoin'" ++ newline
      ++ lit "- Ask blockchain/crypto questions" ++ newline
      ++ lit "- Explore Web3 concepts" ++ newline
      ++ lit "- Build!! " ++ newline
      ++ lit "- LFG !!" in
  (reply_text welcome_text w, tt).

(** The body of [help_command], before decoration. *)
Definition help_command (update : Update) (svc : Services) (w : World)
  : World * unit :=
  let help_text :=
    lit "AgET_TG Help " ++ open_book ++ newline ++ newline
      ++ lit "Price Queries:" ++ newline
      ++ lit "- 'price of bitcoin'" ++ newline
      ++ lit "- 'price of ethereum, solana'" ++ newline ++ newline
      ++ lit "Educational Queries:" ++ newline
      ++ lit "- 'Explain blockchain'" ++ newline
      ++ lit "- 'How do smart contracts work?'" in
  (reply_text help_text w, tt).

End Polling.

(** ** Histories *)

(** A sequence of updates delivered to one decorated handler, each with
    the clock reading and the behaviour of the services at that moment. *)
Definition run_wrapper {R : Type} (cfg : Config)
    (func : Update -> Services -> World -> World * R)
    (history : list (Update * Q * Services))
    (st : gmap Z (list Q) * World) : gmap Z (list Q) * World :=
  fold_left
    (fun st '(update, current_time, svc) =>
       (Webhook.wrapper cfg func update current_time svc st.1 st.2).1)
    history st.

(** A sequence of calls of [get_cached_crypto_prices]. *)
Definition run_lookups (history : list (Services * str)) (w : World) : World :=
  fold_left
    (fun w '(svc, crypto_ids) =>
       (Webhook.get_cached_crypto_prices svc crypto_ids w).1)
    history w.

(** The timestamp [t] passes the limiter's filter at [current_time]. *)
Definition within_window (cfg : Config) (current_time t : Q) : Prop :=
  (current_time - t < inject_Z (RATE_LIMIT_WINDOW cfg))%Q.

(** ** The reply format of the price client, as the specification words it *)






(** ** The rate limiter, as the specification words it *)

(** The timestamps stored for a user; none for a user the map lacks. *)
Definition stored_times (request_times : gmap Z (list Q)) (user_id : Z)
  : list Q :=
  default [] (request_times !! user_id).

(** The invariant of section 3 after one check by the wrapper: every
    timestamp stored for the user passes the filter at the time of the
    check. *)
Definition window_invariant_after (cfg : Config) (current_time : Q)
    (user_id : Z) (request_times : gmap Z (list Q)) : Prop :=
  forall t, In t (stored_times request_times user_id) ->
            within_window cfg current_time t.

(** No user has more timestamps stored than the limit. *)
Definition bounded (cfg : Config) (request_times : gmap Z (list Q)) : Prop :=
  forall user_id times,
    request_times !! user_id = Some times ->
    Z.of_nat (length times) <= MAX_REQUESTS_PER_WINDOW cfg.

(** ** The cache between lookups *)

(** The cache holds [data] for [key], and the entries more recent than
    it have distinct keys, all among [others]. *)
Definition retained (key : str) (data : quotes) (others : list str)
    (cache : list (str * quotes)) : Prop :=
  exists newer older,
    cache = newer ++ (key, data) :: older /\
    (key ∉ newer.*1) /\ NoDup (newer.*1) /\ (newer.*1 ⊆ others).

(** The keys other than [key] looked up in [history], without repeats. *)
Definition other_keys (key : str) (history : list (Services * str))
  : list str :=
  remove_dups (filter (fun k => k <> key) (history.*2)).

(** ** The assistant client between the variants *)

(** The prompt submitted for a question. *)
Definition prompt_for (question : str) : str :=
  Webhook.system_prompt ++ Webhook.newline ++ Webhook.newline
    ++ lit "User: " ++ question.

(** The question passes the length check and the generation service
    raises on its prompt. *)
Definition generation_fails (svc : Services) (question : str) : Prop :=
  question <> [] /\ (length question <= 1000)%nat /\
  generate_content svc (prompt_for question) = None.

(** ** One user's history at a limiter *)

(** The filter of the wrapper at [current_time]. *)
Definition passes (cfg : Config) (current_time t : Q) : bool :=
  Qlt_bool (current_time - t) (inject_Z (RATE_LIMIT_WINDOW cfg)).

(** How many of [times] pass the filter at [current_time]. *)
Definition recent_count (cfg : Config) (current_time : Q) (times : list Q)
  : Z :=
  Z.of_nat (length (List.filter (passes cfg current_time) times)).

(** The clock readings of the requests of [user_id] that the wrapper let
    through to the handler, oldest first, when [history] is delivered
    starting from [st]. *)
Fixpoint accepted_times {R : Type} (cfg : Config)
    (func : Update -> Services -> World -> World * R)
    (history : list (Update * Q * Services))
    (st : gmap Z (list Q) * World) (user_id : Z) : list Q :=
  match history with
  | [] => []
  | (update, current_time, svc) :: rest =>
      let result :=
        Webhook.wrapper cfg func update current_time svc st.1 st.2 in
      (match result.2 with
       | Some _ =>
           if decide (effective_user_id update = user_id)
           then [current_time] else []
       | None => []
       end)
      ++ accepted_times cfg func rest result.1 user_id
  end.

(** No stored list is empty or longer than the limit allows. *)
Definition capped (cfg : Config) (request_times : gmap Z (list Q)) : Prop :=
  forall user_id times,
    request_times !! user_id = Some times ->
    1 <= Z.of_nat (length times) <= Z.max 1 (MAX_REQUESTS_PER_WINDOW cfg).

(** ** Replies *)

(** The handler [func] answers every update with exactly one reply and
    leaves the earlier replies alone. *)
Definition replies_once (func : Update -> Services -> World -> World * unit)
  : Prop :=
  forall update svc w, exists text, sent (func update svc w).1 = sent w ++ [text].

(** The remote requests issued between [w] and [w']: none, one GET, or
    one generation request. *)
Definition at_most_one_request (w w' : World) : Prop :=
  (http_log w' = http_log w /\ gemini_log w' = gemini_log w)
  \/ (exists ids, http_log w' = http_log w ++ [ids] /\
                  gemini_log w' = gemini_log w)
  \/ (exists prompt, gemini_log w' = gemini_log w ++ [prompt] /\
                     http_log w' = http_log w).

(** ** The cache over a history *)

(** The cache keeps at most [maxsize] entries, under distinct keys. *)
Definition cache_ok (cache : list (str * quotes)) : Prop :=
  (length cache <= Lru.maxsize)%nat /\ NoDup (cache.*1).

(** Every key fetched so far is still cached, and was fetched once. *)
Definition fetched_once (w : World) : Prop :=
  NoDup (http_log w) /\ NoDup ((price_cache w).*1) /\
  forall k, k ∈ (price_cache w).*1 <-> k ∈ http_log w.

(** ** Concrete inputs used by the examples *)

(** The quote service of the example: it answers every GET with
    [{"bitcoin": {"usd": 42000.5}}]. *)
Definition bitcoin_quote : quotes :=
  {[ lit "bitcoin" := {[ lit "usd" := 84001 # 2 ]} ]}.

Definition bitcoin_service : Services :=
  {| requests_get := fun _ => HttpOk bitcoin_quote;
     generate_content := fun _ => None |}.


Definition price_update : Update :=
  {| effective_user_id := 7; message_text := lit "price of bitcoin" |}.

(** The map of a limiter that has seen user 7 at times 50 and 70. *)
Definition seen_twice : gmap Z (list Q) := {[ 7 := [50 # 1; 70 # 1] ]}.

(** A quote service that is down, and a generation service that echoes. *)
Definition failing_service : Services :=
  {| requests_get := fun _ => RequestException;
     generate_content := fun prompt => Some prompt |}.

(** One hundred lookups of one hundred distinct one-character keys. *)
Definition hundred_lookups : list (Services * str) :=
  map (fun n => (bitcoin_service, [ascii_of_nat n])) (seq 0 100).

(** A limiter that is configured to admit nothing. *)
Definition closed_config : Config :=
  {| RATE_LIMIT_WINDOW := 60; MAX_REQUESTS_PER_WINDOW := 0 |}.

(** A quote service whose entry for bitcoin carries no "usd" number. *)
Definition broken_quote : quotes := {[ lit "bitcoin" := ∅ ]}.

Definition broken_service : Services :=
  {| requests_get := fun _ => HttpOk broken_quote;
     generate_content := fun prompt => Some prompt |}.

(** One request per minute. *)
Definition strict_config : Config :=
  {| RATE_LIMIT_WINDOW := 60; MAX_REQUESTS_PER_WINDOW := 1 |}.

(** The same question from another user. *)
Definition other_update : Update :=
  {| effective_user_id := 8; message_text := lit "price of bitcoin" |}.

(** The requests of [user_id] in a history. *)
Definition requests_of (user_id : Z) (history : list (Update * Q * Services))
  : list (Update * Q * Services) :=
  List.filter
    (fun '(update, _, _) => bool_decide (effective_user_id update = user_id))
    history.

(** The defaults of the webhook variant. *)
Definition default_config : Config :=
  {| RATE_LIMIT_WINDOW := 60; MAX_REQUESTS_PER_WINDOW := 10 |}.

(** * The same functions on Python's own data

    The embedding above idealises text as ASCII, the clock as exact
    rationals and prices as rationals.  What follows keeps the data of
    the interpreter: a string is a sequence of code points, and the
    Unicode tables behind [str.lower], [str.upper] and [str.isspace] are
    taken as given; a clock reading is a binary64 float and
    [current_time - t] is the rounded subtraction of the processor; a
    JSON number is an integer or a float. *)

Module Py.

Abbreviation str := (list N).

(** The code points of an ASCII literal. *)
Definition lit (s : string) : str :=
  map N_of_ascii (list_ascii_of_string s).

(** The Unicode tables of the interpreter: [s.lower()], [s.upper()] and
    [c.isspace()]. *)
Record Unicode := {
  str_lower : str -> str;
  str_upper : str -> str;
  isspace : N -> bool
}.

Fixpoint lstrip (U : Unicode) (s : str) : str :=
  match s with
  | [] => []
  | c :: s' => if isspace U c then lstrip U s' else s
  end.

Definition rstrip (U : Unicode) (s : str) : str := rev (lstrip U (rev s)).

(** [s.strip()] *)
Definition strip (U : Unicode) (s : str) : str := rstrip U (lstrip U s).

(** [s.startswith(p)] *)
Fixpoint starts_with (p s : str) : bool :=
  match p, s with
  | [], _ => true
  | _ :: _, [] => false
  | a :: p', b :: s' => N.eqb a b && starts_with p' s'
  end.

(** [sub in s] *)
Fixpoint contains (sub s : str) : bool :=
  starts_with sub s ||
  match s with
  | [] => false
  | _ :: s' => contains sub s'
  end.

(** [s.split(sep)] for a non-empty [sep], scanning from the left;
    [skip] counts the characters of an occurrence still to be passed. *)
Fixpoint split_go (sep : str) (skip : nat) (s : str) : list str :=
  match s with
  | [] => [[]]
  | c :: s' =>
      match skip with
      | S n => split_go sep n s'
      | O =>
          if starts_with sep s
          then [] :: split_go sep (length sep - 1) s'
          else match split_go sep 0 s' with
               | t :: ts => (c :: t) :: ts
               | [] => [[c]]
               end
      end
  end.

Definition split (sep s : str) : list str := split_go sep 0 s.

(** [l[-1]] *)
Definition last_item (l : list str) : str := List.last l [].

(** [sep.join(l)] *)
Fixpoint join (sep : str) (l : list str) : str :=
  match l with
  | [] => []
  | x :: l' =>
      match l' with
      | [] => x
      | _ :: _ => x ++ sep ++ join sep l'
      end
  end.

(** The suffix after the last occurrence of [sep] in [s], looking at the
    later positions first: the reading of "everything after the last
    occurrence". *)
Fixpoint after_last (sep s : str) : option str :=
  match s with
  | [] => None
  | _ :: s' =>
      match after_last sep s' with
      | Some r => Some r
      | None => if starts_with sep s then Some (drop (length sep) s) else None
      end
  end.

(** No proper non-empty suffix of [sep] is a prefix of it. *)
Definition unbordered (sep : str) : bool :=
  forallb (fun d => negb (starts_with (drop d sep) sep))
          (seq 1 (length sep - 1)).

(** [x < n] for a float [x] and an integer [n]: the comparison is exact;
    a NaN is below nothing. *)
Definition float_lt_int (x : float) (n : Z) : bool :=
  match Prim2SF x with
  | S754_nan => false
  | S754_infinity negative => negative
  | S754_zero _ => 0 <? n
  | S754_finite negative m e =>
      let v := if negative then Z.neg m else Z.pos m in
      if 0 <=? e then v * 2 ^ e <? n else v <? n * 2 ^ (- e)
  end.

(** A JSON number. *)
Inductive number :=
| Int (n : Z)
| Float (x : float).

(** [float(n)]: the nearest float, ties to even; [None] is the
    [OverflowError] of an integer beyond the range of floats. *)
Definition float_of_int (n : Z) : option float :=
  match binary_normalize prec emax n 0 false with
  | S754_infinity _ => None
  | x => Some (SF2Prim x)
  end.

(** [format(x, ".2f")] for a float: the exact value of [x], rounded to
    two decimals, ties to even. *)
Definition format_2f (x : float) : str :=
  match Prim2SF x with
  | S754_nan => lit "nan"
  | S754_infinity negative =>
      (if negative then lit "-" else []) ++ lit "inf"
  | S754_zero negative =>
      (if negative then lit "-" else []) ++ lit "0.00"
  | S754_finite negative m e =>
      let cents :=
        if 0 <=? e
        then Fmt.round_half_even (Z.pos m * 2 ^ e * 100) 1
        else Fmt.round_half_even (Z.pos m * 100) (Z.to_pos (2 ^ (- e))) in
      (if negative then lit "-" else [])
        ++ map N_of_ascii (Fmt.decimal (cents / 100)) ++ lit "."
        ++ map N_of_ascii [Fmt.digit (cents / 10); Fmt.digit cents]
  end.

(** [f"{price:.2f}"]; [None] is the exception of the conversion. *)
Definition format_number (price : number) : option str :=
  match price with
  | Int n =>
      match float_of_int n with
      | Some x => Some (format_2f x)
      | None => None
      end
  | Float x => Some (format_2f x)
  end.

Abbreviation quotes := (gmap str (gmap str number)).

Inductive http_result :=
| HttpOk (body : quotes)
| RequestException.

Record Services := {
  requests_get : str -> http_result;
  generate_content : str -> option str
}.

Record World := {
  price_cache : list (str * quotes);
  http_log : list str;
  gemini_log : list str;
  sent : list str
}.

Definition initial_world : World :=
  {| price_cache := []; http_log := []; gemini_log := []; sent := [] |}.

Definition set_cache (c : list (str * quotes)) (w : World) : World :=
  {| price_cache := c; http_log := http_log w;
     gemini_log := gemini_log w; sent := sent w |}.

Definition log_http (ids : str) (w : World) : World :=
  {| price_cache := price_cache w; http_log := http_log w ++ [ids];
     gemini_log := gemini_log w; sent := sent w |}.

Definition log_gemini (prompt : str) (w : World) : World :=
  {| price_cache := price_cache w; http_log := http_log w;
     gemini_log := gemini_log w ++ [prompt]; sent := sent w |}.

Definition reply_text (text : str) (w : World) : World :=
  {| price_cache := price_cache w; http_log := http_log w;
     gemini_log := gemini_log w; sent := sent w ++ [text] |}.

Record Update := {
  effective_user_id : Z;
  message_text : str
}.

Definition maxsize : nat := 100.

Fixpoint find (k : str) (c : list (str * quotes)) : option quotes :=
  match c with
  | [] => None
  | (k', v) :: c' => if decide (k' = k) then Some v else find k c'
  end.

Definition touch (k : str) (v : quotes) (c : list (str * quotes))
  : list (str * quotes) :=
  (k, v) :: filter (fun p => p.1 <> k) c.

Definition store (k : str) (v : quotes) (c : list (str * quotes))
  : list (str * quotes) :=
  take maxsize ((k, v) :: c).

Definition newline : str := [10%N].

End Py.

(** ** The webhook variant on Python's data *)

Module WebhookPy.

(** [rate_limit(func)]; [current_time - t] is the float subtraction. *)
Definition wrapper {R : Type} (cfg : Config)
    (func : Py.Update -> Py.Services -> Py.World -> Py.World * R)
    (update : Py.Update) (current_time : float) (svc : Py.Services)
    (request_times : gmap Z (list float)) (w : Py.World)
  : gmap Z (list float) * Py.World * option R :=
  let user_id := Py.effective_user_id update in
  match request_times !! user_id with
  | Some times =>
      let recent_requests :=
        List.filter
          (fun t => Py.float_lt_int (current_time - t)%float
                                    (RATE_LIMIT_WINDOW cfg))
          times in
      if Z.of_nat (length recent_requests) >=? MAX_REQUESTS_PER_WINDOW cfg
      then
        (request_times,
         Py.reply_text
           (Py.lit "Too many requests. Please wait before sending more messages.")
           w,
         None)
      else
        let recent_requests := recent_requests ++ [current_time] in
        let '(w', r) := func update svc w in
        (<[user_id := recent_requests]> request_times, w', Some r)
  | None =>
      let '(w', r) := func update svc w in
      (<[user_id := [current_time]]> request_times, w', Some r)
  end.

Definition get_cached_crypto_prices (svc : Py.Services) (crypto_ids : Py.str)
    (w : Py.World) : Py.World * Py.quotes :=
  match Py.find crypto_ids (Py.price_cache w) with
  | Some data =>
      (Py.set_cache (Py.touch crypto_ids data (Py.price_cache w)) w, data)
  | None =>
      let w := Py.log_http crypto_ids w in
      let data :=
        match Py.requests_get svc crypto_ids with
        | Py.HttpOk body => body
        | Py.RequestException => ∅
        end in
      (Py.set_cache (Py.store crypto_ids data (Py.price_cache w)) w, data)
  end.

(** The [for] loop of [get_crypto_prices]; [None] is an exception: the
    [KeyError] of [data[crypto_id]["usd"]] or the [OverflowError] of the
    formatting. *)
Fixpoint price_loop (U : Py.Unicode) (data : Py.quotes)
    (crypto_ids : list Py.str) (prices : list Py.str)
  : option (list Py.str) :=
  match crypto_ids with
  | [] => Some prices
  | crypto_id :: rest =>
      let crypto_id := Py.str_lower U crypto_id in
      match data !! crypto_id with
      | Some entry =>
          match entry !! Py.lit "usd" with
          | Some price =>
              match Py.format_number price with
              | Some text =>
                  price_loop U data rest
                    (prices ++ [Py.str_upper U crypto_id ++ Py.lit ": $"
                                  ++ text ++ Py.lit " USD"])
              | None => None
              end
          | None => None
          end
      | None => price_loop U data rest prices
      end
  end.

Definition get_crypto_prices (U : Py.Unicode) (svc : Py.Services)
    (crypto_ids : list Py.str) (w : Py.World) : Py.World * Py.str :=
  let crypto_str := Py.str_lower U (Py.join (Py.lit ",") crypto_ids) in
  let '(w, data) := get_cached_crypto_prices svc crypto_str w in
  match price_loop U data crypto_ids [] with
  | Some prices =>
      (w, match prices with
          | [] => Py.lit "No prices found."
          | _ :: _ => Py.join Py.newline prices
          end)
  | None => (w, Py.lit "Price lookup failed.")
  end.

Definition system_prompt : Py.str :=
  Py.lit "You are AgET_TG, a friendly and knowledgeable AI assistant specializing in cryptocurrency, blockchain development and web3 technologies. "
  ++ Py.lit "Your goal is to educate users and developers, provide accurate information, and assist with crypto-related queries. "
  ++ Py.lit "Always respond in a clear, concise, and engaging manner. "
  ++ Py.lit "If a user asks about cryptocurrency prices, fetch the latest data. "
  ++ Py.lit "For educational questions, explain concepts in simple terms with examples. "
  ++ Py.lit "Be proactive in suggesting related topics or resources. "
  ++ Py.lit "Remember to maintain a professional yet approachable tone.".

(** [len(question)] is the number of code points. *)
Definition ask_gemini (svc : Py.Services) (question : Py.str) (w : Py.World)
  : Py.World * Py.str :=
  if match question with [] => true | _ :: _ => false end
     || (1000 <? length question)%nat
  then (w, Py.lit "Invalid query length.")
  else
    let prompt :=
      system_prompt ++ Py.newline ++ Py.newline ++ Py.lit "User: "
        ++ question in
    let w := Py.log_gemini prompt w in
    match Py.generate_content svc prompt with
    | Some text => (w, text)
    | None => (w, Py.lit "Query processing failed.")
    end.

Definition handle_message (U : Py.Unicode) (update : Py.Update)
    (svc : Py.Services) (w : Py.World) : Py.World * unit :=
  let user_message := Py.str_lower U (Py.message_text update) in
  let '(w, response) :=
    if Py.contains (Py.lit "price of") user_message
    then
      let crypto_names :=
        Py.split (Py.lit ",")
          (Py.strip U
             (Py.last_item (Py.split (Py.lit "price of") user_message))) in
      let crypto_names :=
        map (fun name => Py.str_lower U (Py.strip U name)) crypto_names in
      get_crypto_prices U svc crypto_names w
    else ask_gemini svc user_message w in
  (Py.reply_text response w, tt).

End WebhookPy.

(** ** The polling variant on Python's data *)

Module PollingPy.

(** [rate_limit(func)]; [current_time - t] is the float subtraction. *)
Definition wrapper {R : Type} (cfg : Config)
    (func : Py.Update -> Py.Services -> Py.World -> Py.World * R)
    (update : Py.Update) (current_time : float) (svc : Py.Services)
    (request_times : gmap Z (list float)) (w : Py.World)
  : gmap Z (list float) * Py.World * option R :=
  let user_id := Py.effective_user_id update in
  match request_times !! user_id with
  | Some times =>
      let recent_requests :=
        List.filter
          (fun t => Py.float_lt_int (current_time - t)%float
                                    (RATE_LIMIT_WINDOW cfg))
          times in
      if Z.of_nat (length recent_requests) >=? MAX_REQUESTS_PER_WINDOW cfg
      then
        (request_times,
         Py.reply_text
           (Py.lit "Too many requests. Please wait before sending more messages.")
           w,
         None)
      else
        let recent_requests := recent_requests ++ [current_time] in
        let '(w', r) := func update svc w in
        (<[user_id := recent_requests]> request_times, w', Some r)
  | None =>
      let '(w', r) := func update svc w in
      (<[user_id := [current_time]]> request_times, w', Some r)
  end.

Definition get_cached_crypto_prices (svc : Py.Services) (crypto_ids : Py.str)
    (w : Py.World) : Py.World * Py.quotes :=
  match Py.find crypto_ids (Py.price_cache w) with
  | Some data =>
      (Py.set_cache (Py.touch crypto_ids data (Py.price_cache w)) w, data)
  | None =>
      let w := Py.log_http crypto_ids w in
      let data :=
        match Py.requests_get svc crypto_ids with
        | Py.HttpOk body => body
        | Py.RequestException => ∅
        end in
      (Py.set_cache (Py.store crypto_ids data (Py.price_cache w)) w, data)
  end.

(** The [for] loop of [get_crypto_prices]; [None] is an exception: the
    [KeyError] of [data[crypto_id]["usd"]] or the [OverflowError] of the
    formatting. *)
Fixpoint price_loop (U : Py.Unicode) (data : Py.quotes)
    (crypto_ids : list Py.str) (prices : list Py.str)
  : option (list Py.str) :=
  match crypto_ids with
  | [] => Some prices
  | crypto_id :: rest =>
      let crypto_id := Py.str_lower U crypto_id in
      match data !! crypto_id with
      | Some entry =>
          match entry !! Py.lit "usd" with
          | Some price =>
              match Py.format_number price with
              | Some text =>
                  price_loop U data rest
                    (prices ++ [Py.str_upper U crypto_id ++ Py.lit ": $"
                                  ++ text ++ Py.lit " USD"])
              | None => None
              end
          | None => None
          end
      | None => price_loop U data rest prices
      end
  end.

Definition get_crypto_prices (U : Py.Unicode) (svc : Py.Services)
    (crypto_ids : list Py.str) (w : Py.World) : Py.World * Py.str :=
  let crypto_str := Py.str_lower U (Py.join (Py.lit ",") crypto_ids) in
  let '(w, data) := get_cached_crypto_prices svc crypto_str w in
  match price_loop U data crypto_ids [] with
  | Some prices =>
      (w, match prices with
          | [] => Py.lit "No prices found."
          | _ :: _ => Py.join Py.newline prices
          end)
  | None => (w, Py.lit "Price lookup failed.")
  end.

Definition system_prompt : Py.str :=
  Py.lit "You are AgET_TG, a friendly and knowledgeable AI assistant specializing in cryptocurrency, blockchain development and web3 technologies. "
  ++ Py.lit "Your goal is to educate users and developers, provide accurate information, and assist with crypto-related queries. "
  ++ Py.lit "Always respond in a clear, concise, and engaging manner. "
  ++ Py.lit "If a user asks about cryptocurrency prices, fetch the latest data. "
  ++ Py.lit "For educational questions, explain concepts in simple terms with examples. "
  ++ Py.lit "Be proactive in suggesting related topics or resources. "
  ++ Py.lit "Remember to maintain a professional yet approachable tone.".

(** [len(question)] is the number of code points. *)
Definition ask_gemini (svc : Py.Services) (question : Py.str) (w : Py.World)
  : Py.World * Py.str :=
  if match question with [] => true | _ :: _ => false end
     || (1000 <? length question)%nat
  then (w, Py.lit "Invalid query length.")
  else
    let prompt :=
      system_prompt ++ Py.newline ++ Py.newline ++ Py.lit "User: "
        ++ question in
    let w := Py.log_gemini prompt w in
    match Py.generate_content svc prompt with
    | Some text => (w, text)
    | None => (w, Py.lit "Gemini query processing failed.")
    end.

Definition handle_message (U : Py.Unicode) (update : Py.Update)
    (svc : Py.Services) (w : Py.World) : Py.World * unit :=
  let user_message := Py.str_lower U (Py.message_text update) in
  let '(w, response) :=
    if Py.contains (Py.lit "price of") user_message
    then
      let crypto_names :=
        Py.split (Py.lit ",")
          (Py.strip U
             (Py.last_item (Py.split (Py.lit "price of") user_message))) in
      let crypto_names :=
        map (fun name => Py.str_lower U (Py.strip U name)) crypto_names in
      get_crypto_prices U svc crypto_names w
    else ask_gemini svc user_message w in
  (Py.reply_text response w, tt).

End PollingPy.

(** ** Predicates and histories on Python's data *)

Module PyProps.

(** The timestamps stored for a user; none for a user the map lacks. *)
Definition stored_times (request_times : gmap Z (list float)) (user_id : Z)
  : list float :=
  default [] (request_times !! user_id).

(** The test of the wrapper's filter: the float [current_time - t] is
    below the window. *)
Definition passes (cfg : Config) (current_time t : float) : bool :=
  Py.float_lt_int (current_time - t)%float (RATE_LIMIT_WINDOW cfg).

Definition within_window (cfg : Config) (current_time t : float) : Prop :=
  passes cfg current_time t = true.

(** The contract of section 4.1 at one call, for the result [result] of
    the wrapper: filter the stored times to those with
    [now - t < WINDOW]; with [MAX_REQUESTS] or more of them reject,
    leaving the map as it is and not calling the handler; otherwise
    store the filtered times followed by [now] and call the handler. *)
Definition limiter_as_claimed {R : Type} (cfg : Config)
    (func : Py.Update -> Py.Services -> Py.World -> Py.World * R)
    (update : Py.Update) (current_time : float) (svc : Py.Services)
    (request_times : gmap Z (list float)) (w : Py.World)
    (result : gmap Z (list float) * Py.World * option R) : Prop :=
  let user_id := Py.effective_user_id update in
  let recent_requests :=
    List.filter (passes cfg current_time)
                (stored_times request_times user_id) in
  (forall t, In t recent_requests <->
             In t (stored_times request_times user_id) /\
             within_window cfg current_time t) /\
  if Z.of_nat (length recent_requests) >=? MAX_REQUESTS_PER_WINDOW cfg
  then
    result =
      (request_times,
       Py.reply_text
         (Py.lit "Too many requests. Please wait before sending more messages.")
         w,
       None)
  else
    result =
      (<[user_id := recent_requests ++ [current_time]]> request_times,
       (func update svc w).1, Some (func update svc w).2).

(** How many of [times] pass the filter at [current_time]. *)
Definition recent_count (cfg : Config) (current_time : float)
    (times : list float) : Z :=
  Z.of_nat (length (List.filter (passes cfg current_time) times)).

(** A sequence of updates delivered to one decorated handler. *)
Definition run_wrapper {R : Type} (cfg : Config)
    (func : Py.Update -> Py.Services -> Py.World -> Py.World * R)
    (history : list (Py.Update * float * Py.Services))
    (st : gmap Z (list float) * Py.World) : gmap Z (list float) * Py.World :=
  fold_left
    (fun st '(update, current_time, svc) =>
       (WebhookPy.wrapper cfg func update current_time svc st.1 st.2).1)
    history st.

(** The clock readings of the requests of [user_id] that the wrapper let
    through to the handler, oldest first. *)
Fixpoint accepted_times {R : Type} (cfg : Config)
    (func : Py.Update -> Py.Services -> Py.World -> Py.World * R)
    (history : list (Py.Update * float * Py.Services))
    (st : gmap Z (list float) * Py.World) (user_id : Z) : list float :=
  match history with
  | [] => []
  | (update, current_time, svc) :: rest =>
      let result :=
        WebhookPy.wrapper cfg func update current_time svc st.1 st.2 in
      (match result.2 with
       | Some _ =>
           if decide (Py.effective_user_id update = user_id)
           then [current_time] else []
       | None => []
       end)
      ++ accepted_times cfg func rest result.1 user_id
  end.

(** The clock readings of a history, in order. *)
Definition readings (history : list (Py.Update * float * Py.Services))
  : list float :=
  map (fun '(_, current_time, _) => current_time) history.

(** Every reading is at most every later one. *)
Definition chronological (times : list float) : Prop :=
  StronglySorted (fun a b => (a <=? b)%float = true) times.

(** On the readings [times] the test of the filter is monotone in the
    clock: a timestamp that passes at a later reading passes at an
    earlier one.  Rounding to nearest is monotone, so the readings of a
    clock satisfy this. *)
Definition age_test_monotone (cfg : Config) (times : list float) : Prop :=
  forall a b t,
    In a times -> In b times -> In t times ->
    (a <=? b)%float = true ->
    passes cfg b t = true -> passes cfg a t = true.

(** The same, as a check that can be run. *)
Definition age_test_monotone_check (cfg : Config) (times : list float)
  : bool :=
  forallb
    (fun a =>
       forallb
         (fun b =>
            forallb
              (fun t =>
                 implb (a <=? b)%float
                       (implb (passes cfg b t) (passes cfg a t)))
              times)
         times)
    times.

(** What the stored times and the accepted requests of [user_id] have in
    common: at each of the readings still to come the same ones pass the
    filter; and the stored times are readings. *)
Definition tracks (cfg : Config) (user_id : Z) (all future : list float)
    (request_times : gmap Z (list float)) (accepted : list float) : Prop :=
  (forall now, In now future ->
     List.filter (passes cfg now) (stored_times request_times user_id)
     = List.filter (passes cfg now) accepted)
  /\ (forall t, In t (stored_times request_times user_id) -> In t all).

(** No stored list is empty or longer than the limit allows. *)
Definition capped (cfg : Config) (request_times : gmap Z (list float))
  : Prop :=
  forall user_id times,
    request_times !! user_id = Some times ->
    1 <= Z.of_nat (length times) <= Z.max 1 (MAX_REQUESTS_PER_WINDOW cfg).

(** [pre ++ sep ++ rest] is the split of [s] at the last occurrence of
    [sep]: no occurrence of [sep] in [s] starts further to the right. *)
Definition last_occurrence (sep s pre rest : Py.str) : Prop :=
  s = pre ++ sep ++ rest /\
  forall pre' rest', s = pre' ++ sep ++ rest' -> (length pre' <= length pre)%nat.

(** [sep] occurs in [s]. *)
Definition occurs (sep s : Py.str) : Prop :=
  exists pre rest, s = pre ++ sep ++ rest.

(** While [skip] characters of an occurrence of [sep] remain to be passed
    over by [split_go], the text ahead starts with the last [skip]
    characters of [sep]. *)
Definition inside (sep : Py.str) (skip : nat) (s : Py.str) : Prop :=
  skip = 0%nat \/
  ((skip < length sep)%nat /\
   Py.starts_with (drop (length sep - skip) sep) s = true).

(** The prompt submitted for a question. *)
Definition prompt_for (question : Py.str) : Py.str :=
  WebhookPy.system_prompt ++ Py.newline ++ Py.newline
    ++ Py.lit "User: " ++ question.

(** The stripped pieces of a price query: the text after the last
    "price of", split on commas, each piece stripped. *)
Definition dispatched_pieces (U : Py.Unicode) (user_message : Py.str)
  : list Py.str :=
  map (Py.strip U)
      (Py.split (Py.lit ",")
         (Py.strip U
            (Py.last_item (Py.split (Py.lit "price of") user_message)))).

(** A piece without a comma and without whitespace at either end. *)
Definition trimmed (U : Py.Unicode) (piece : Py.str) : Prop :=
  ~ In 44%N piece /\ Py.strip U piece = piece.

End PyProps.

(** ** Concrete inputs on Python's data *)

Module PyInputs.

(** Tables that agree with the interpreter's on ASCII text. *)
Definition ascii_lower (s : Py.str) : Py.str :=
  map (fun c => if ((65 <=? c) && (c <=? 90))%N then (c + 32)%N else c) s.

Definition ascii_upper (s : Py.str) : Py.str :=
  map (fun c => if ((97 <=? c) && (c <=? 122))%N then (c - 32)%N else c) s.

Definition ascii_tables : Py.Unicode :=
  {| Py.str_lower := ascii_lower;
     Py.str_upper := ascii_upper;
     Py.isspace :=
       fun c => (((9 <=? c) && (c <=? 13)) || ((28 <=? c) && (c <=? 32)))%N |}.

Definition bitcoin_quote : Py.quotes :=
  {[ Py.lit "bitcoin" := {[ Py.lit "usd" := Py.Float 42000.5 ]} ]}.

(** A quote service that answers, with a generation service that is down. *)
Definition bitcoin_service : Py.Services :=
  {| Py.requests_get := fun _ => Py.HttpOk bitcoin_quote;
     Py.generate_content := fun _ => None |}.

(** A quote service that is down, with a generation service that echoes. *)
Definition failing_service : Py.Services :=
  {| Py.requests_get := fun _ => Py.RequestException;
     Py.generate_content := fun prompt => Some prompt |}.

Definition price_update : Py.Update :=
  {| Py.effective_user_id := 7;
     Py.message_text := Py.lit "Price of Bitcoin, Ethereum" |}.

Definition question_update : Py.Update :=
  {| Py.effective_user_id := 7;
     Py.message_text := Py.lit "What is a smart contract" |}.

(** 600 times the letter e with an acute accent, U+00E9. *)
Definition accented_question : Py.str := repeat 233%N 600.

(** 1001 times the letter a. *)
Definition long_question : Py.str := repeat 97%N 1001.

Definition long_update : Py.Update :=
  {| Py.effective_user_id := 7; Py.message_text := long_question |}.

Definition handler : Py.Update -> Py.Services -> Py.World -> Py.World * unit :=
  WebhookPy.handle_message ascii_tables.

Definition seen_twice : gmap Z (list float) := {[ 7 := [50; 70]%float ]}.

(** One request, at 0.05 seconds. *)
Definition seen_early : gmap Z (list float) := {[ 7 := [0.05%float] ]}.

End PyInputs.

(** ** Sanity checks of the embedding *)

Example split_price_example :
  split (lit ",") (lit "bitcoin, ethereum") = [lit "bitcoin"; lit " ethereum"].
Proof. reflexivity. Qed.

Example split_last_example :
  last_item (split (lit "price of") (lit "price of a price of b")) = lit " b".
Proof. reflexivity. Qed.

Example strip_example : strip (lit "  ethereum ") = lit "ethereum".
Proof. reflexivity. Qed.

Example unbordered_price_of : unbordered (lit "price of") = true.
Proof. reflexivity. Qed.

Example format_2f_42000_5 : format_2f (84001 # 2) = lit "42000.50".
Proof. reflexivity. Qed.

Example format_2f_tie_even : format_2f (1 # 8) = lit "0.12".
Proof. reflexivity. Qed.

Example format_2f_negative : format_2f (-1 # 1000) = lit "-0.00".
Proof. reflexivity. Qed.

(** ** Text lemmas: prefixes, occurrences and [split] *)

Section Prefix.

Lemma starts_with_inv (p s : str) :
  starts_with p s = true -> s = p ++ drop (length p) s.
Proof.
  revert s. induction p as [|a p IH]; intros s H; simpl in *.
  - now rewrite drop_0.
  - destruct s as [|b s]; [discriminate|].
    apply andb_true_iff in H as [Hab Hps].
    apply Ascii.eqb_eq in Hab. subst b. simpl. f_equal. now apply IH.
Qed.

End Prefix.

(** ** Text lemmas: the pieces of a split *)

Lemma split_go_nonempty (sep : str) (skip : nat) (s : str) :
  split_go sep skip s <> [].
Proof.
  revert skip. induction s as [|c s IH]; intros skip; [discriminate|].
  destruct skip as [|n]; cbn [split_go]; [|apply IH].
  destruct (starts_with sep (c :: s)); [discriminate|].
  destruct (split_go sep 0 s); discriminate.
Qed.

(** ** The message router *)

Example route_price_query (svc : Services) (w : World) :
  Webhook.handle_message
    {| effective_user_id := 7; message_text := lit "Price of Bitcoin, Ethereum" |}
    svc w =
  (reply_text
     (Webhook.get_crypto_prices svc [lit "bitcoin"; lit "ethereum"] w).2
     (Webhook.get_crypto_prices svc [lit "bitcoin"; lit "ethereum"] w).1, tt).
Proof.
  unfold Webhook.handle_message.
  change (lower (message_text _)) with (lit "price of bitcoin, ethereum").
  change (contains _ _) with true. cbv iota.
  change (map _ (split _ _)) with [lit "bitcoin"; lit "ethereum"].
  now destruct (Webhook.get_crypto_prices _ _ _).
Qed.

Example route_general_query (svc : Services) (w : World) :
  Webhook.handle_message
    {| effective_user_id := 7; message_text := lit "what is a smart contract" |}
    svc w =
  (reply_text
     (Webhook.ask_gemini svc (lit "what is a smart contract") w).2
     (Webhook.ask_gemini svc (lit "what is a smart contract") w).1, tt).
Proof.
  unfold Webhook.handle_message.
  change (lower (message_text _)) with (lit "what is a smart contract").
  change (contains _ _) with false. cbv iota.
  now destruct (Webhook.ask_gemini _ _ _).
Qed.

(** ** The price lookup client: formatting *)











(** ** The rate limiter *)

Lemma Qlt_bool_iff (x y : Q) : Qlt_bool x y = true <-> (x < y)%Q.
Proof.
  unfold Qlt_bool. rewrite negb_true_iff. split.
  - intros H. apply Qnot_le_lt. intros Hle.
    apply Qle_bool_iff in Hle. congruence.
  - intros H. destruct (Qle_bool y x) eqn:E; [|reflexivity].
    apply Qle_bool_iff in E. now apply Qlt_not_le in H.
Qed.

Lemma recent_requests_spec (cfg : Config) (current_time : Q) (times : list Q) (t : Q) :
  In t (List.filter
          (fun t => Qlt_bool (current_time - t) (inject_Z (RATE_LIMIT_WINDOW cfg)))
          times)
  <-> In t times /\ within_window cfg current_time t.
Proof. rewrite filter_In. unfold within_window. now rewrite Qlt_bool_iff. Qed.

(** The two variants carry the same decorator. *)
Lemma wrapper_variants_agree {R : Type} (cfg : Config)
    (func : Update -> Services -> World -> World * R)
    (update : Update) (current_time : Q) (svc : Services)
    (request_times : gmap Z (list Q)) (w : World) :
  Polling.wrapper cfg func update current_time svc request_times w =
  Webhook.wrapper cfg func update current_time svc request_times w.
Proof. reflexivity. Qed.

Section Wrapper.

Context {R : Type}.
Variable cfg : Config.
Variable func : Update -> Services -> World -> World * R.
Variables (update : Update) (current_time : Q) (svc : Services).
Variables (request_times : gmap Z (list Q)) (w : World).

Local Abbreviation user_id := (effective_user_id update).

Lemma wrapper_absent :
  request_times !! user_id = None ->
  Webhook.wrapper cfg func update current_time svc request_times w =
    (<[user_id := [current_time]]> request_times,
     (func update svc w).1, Some (func update svc w).2).
Proof.
  intros H. unfold Webhook.wrapper. rewrite H.
  now destruct (func update svc w).
Qed.

End Wrapper.

(** C9. A user the map does not hold is accepted whatever the
    configuration, MAX_REQUESTS_PER_WINDOW = 0 included: the wrapper
    stores [[now]] for the user and calls the handler, in both
    variants, and no reply of the limiter is sent. *)
Theorem first_request_always_accepted {R : Type} (cfg : Config)
    (func : Update -> Services -> World -> World * R)
    (update : Update) (current_time : Q) (svc : Services)
    (request_times : gmap Z (list Q)) (w : World) :
  request_times !! effective_user_id update = None ->
  Webhook.wrapper cfg func update current_time svc request_times w =
    (<[effective_user_id update := [current_time]]> request_times,
     (func update svc w).1, Some (func update svc w).2)
  /\
  Polling.wrapper cfg func update current_time svc request_times w =
    (<[effective_user_id update := [current_time]]> request_times,
     (func update svc w).1, Some (func update svc w).2).
Proof.
  intros H.
  pose proof (wrapper_absent cfg func update current_time svc request_times w H)
    as Hw.
  split; [exact Hw|].
  now rewrite <- (wrapper_variants_agree cfg func update current_time svc
                    request_times w) in Hw.
Qed.

Lemma first_request_always_accepted_witness :
  (Webhook.wrapper closed_config Webhook.handle_message price_update 0
     bitcoin_service ∅ initial_world).2 = Some tt.
Proof.
  rewrite (proj1 (first_request_always_accepted closed_config
                    Webhook.handle_message price_update 0 bitcoin_service ∅
                    initial_world (lookup_empty _))).
  cbn [snd]. now destruct (Webhook.handle_message _ _ _) as [? []].
Defined.

(** ** The rate limiter: the window invariant *)

Lemma filter_keeps_all {A : Type} (f : A -> bool) (l : list A) :
  (length l <= length (List.filter f l))%nat ->
  forall x, In x l -> f x = true.
Proof.
  induction l as [|a l IH]; intros Hlen x Hin; [destruct Hin|].
  cbn [List.filter] in Hlen. destruct (f a) eqn:E.
  - destruct Hin as [<-|Hin]; [exact E|].
    apply IH; [cbn [length] in Hlen; lia|exact Hin].
  - pose proof (List.filter_length_le f l). cbn [length] in Hlen. lia.
Qed.

Section Invariant.

Context {R : Type}.
Variable cfg : Config.
Variable func : Update -> Services -> World -> World * R.
Hypothesis window_positive : 0 < RATE_LIMIT_WINDOW cfg.
Hypothesis limit_positive : 1 <= MAX_REQUESTS_PER_WINDOW cfg.

Lemma now_within_window (current_time : Q) :
  within_window cfg current_time current_time.
Proof.
  unfold within_window.
  assert (H : (inject_Z 0 < inject_Z (RATE_LIMIT_WINDOW cfg))%Q)
    by (rewrite <- Zlt_Qlt; exact window_positive).
  assert (E : (current_time - current_time == inject_Z 0)%Q) by ring.
  now rewrite E.
Qed.

Lemma wrapper_bounded (update : Update) (current_time : Q) (svc : Services)
    (request_times : gmap Z (list Q)) (w : World) :
  bounded cfg request_times ->
  bounded cfg
    (Webhook.wrapper cfg func update current_time svc request_times w).1.1.
Proof.
  intros Hb. unfold Webhook.wrapper.
  destruct (request_times !! effective_user_id update) as [times|] eqn:E.
  - destruct (Z.geb_spec
                (Z.of_nat (length (List.filter
                   (fun t => Qlt_bool (current_time - t)
                               (inject_Z (RATE_LIMIT_WINDOW cfg))) times)))
                (MAX_REQUESTS_PER_WINDOW cfg)) as [Hge|Hlt].
    + exact Hb.
    + destruct (func update svc w) as [w' r]. cbn [fst].
      intros u l Hl. destruct (decide (effective_user_id update = u)) as [<-|Hne].
      * rewrite lookup_insert_eq in Hl. injection Hl as <-.
        rewrite length_app. cbn [length]. lia.
      * rewrite lookup_insert_ne in Hl by exact Hne. now apply Hb with u.
  - destruct (func update svc w) as [w' r]. cbn [fst].
    intros u l Hl. destruct (decide (effective_user_id update = u)) as [<-|Hne].
    + rewrite lookup_insert_eq in Hl. injection Hl as <-. cbn [length]. lia.
    + rewrite lookup_insert_ne in Hl by exact Hne. now apply Hb with u.
Qed.

Lemma run_wrapper_bounded (history : list (Update * Q * Services))
    (st : gmap Z (list Q) * World) :
  bounded cfg st.1 -> bounded cfg (run_wrapper cfg func history st).1.
Proof.
  revert st. induction history as [|[[update current_time] svc] history IH];
    intros st Hb; [exact Hb|].
  unfold run_wrapper. cbn [fold_left]. apply IH. now apply wrapper_bounded.
Qed.

Lemma wrapper_window (update : Update) (current_time : Q) (svc : Services)
    (request_times : gmap Z (list Q)) (w : World) :
  bounded cfg request_times ->
  window_invariant_after cfg current_time (effective_user_id update)
    (Webhook.wrapper cfg func update current_time svc request_times w).1.1.
Proof.
  intros Hb t. unfold stored_times, Webhook.wrapper.
  destruct (request_times !! effective_user_id update) as [times|] eqn:E.
  - destruct (Z.geb_spec
                (Z.of_nat (length (List.filter
                   (fun t => Qlt_bool (current_time - t)
                               (inject_Z (RATE_LIMIT_WINDOW cfg))) times)))
                (MAX_REQUESTS_PER_WINDOW cfg)) as [Hge|Hlt].
    + cbn [fst]. rewrite E. cbn [default]. intros Hin.
      apply Qlt_bool_iff.
      apply (filter_keeps_all
               (fun t => Qlt_bool (current_time - t)
                           (inject_Z (RATE_LIMIT_WINDOW cfg))) times);
        [|exact Hin].
      specialize (Hb _ _ E). lia.
    + destruct (func update svc w) as [w' r]. cbn [fst].
      rewrite lookup_insert_eq. cbn [default]. intros Hin.
      apply in_app_or in Hin as [Hin|[<-|[]]].
      * now apply recent_requests_spec in Hin as [_ Hin].
      * apply now_within_window.
  - destruct (func update svc w) as [w' r]. cbn [fst].
    rewrite lookup_insert_eq. cbn [default]. intros [<-|[]].
    apply now_within_window.
Qed.

End Invariant.

Lemma bounded_empty (cfg : Config) :
  0 <= MAX_REQUESTS_PER_WINDOW cfg -> bounded cfg ∅.
Proof. intros _ user_id times H. now rewrite lookup_empty in H. Qed.

(** C4 (amended). With a positive window and a limit of at least 1,
    after every check by the limiter of a handler that started with an
    empty map, accepted or rejected, every timestamp stored for the
    checked user satisfies [now - t < RATE_LIMIT_WINDOW]. *)
Theorem stored_times_within_window {R : Type} (cfg : Config)
    (func : Update -> Services -> World -> World * R)
    (history : list (Update * Q * Services))
    (update : Update) (current_time : Q) (svc : Services) :
  0 < RATE_LIMIT_WINDOW cfg ->
  1 <= MAX_REQUESTS_PER_WINDOW cfg ->
  let st := run_wrapper cfg func history (∅, initial_world) in
  window_invariant_after cfg current_time (effective_user_id update)
    (Webhook.wrapper cfg func update current_time svc st.1 st.2).1.1.
Proof.
  intros Hw Hm st. apply wrapper_window; [exact Hw|].
  apply run_wrapper_bounded; [exact Hm|]. apply bounded_empty. lia.
Qed.

Lemma stored_times_within_window_witness :
  window_invariant_after default_config 100 7
    (Webhook.wrapper default_config Webhook.handle_message price_update 100
       bitcoin_service
       (run_wrapper default_config Webhook.handle_message
          [(price_update, 0%Q, bitcoin_service)] (∅, initial_world)).1
       (run_wrapper default_config Webhook.handle_message
          [(price_update, 0%Q, bitcoin_service)] (∅, initial_world)).2).1.1.
Proof.
  apply (stored_times_within_window default_config Webhook.handle_message
           [(price_update, 0%Q, bitcoin_service)] price_update 100
           bitcoin_service); simpl; lia.
Defined.

(** With a limit of 0 the first request of a user is recorded all the
    same, every later one is rejected, and a rejection leaves the stored
    list as it is: the timestamp 0 is still stored after the check at
    time 100, a window of 60 notwithstanding. *)
Lemma stale_timestamp_after_rejection :
  ~ window_invariant_after closed_config 100 7
      (Webhook.wrapper closed_config Webhook.handle_message price_update 100
         bitcoin_service
         (run_wrapper closed_config Webhook.handle_message
            [(price_update, 0%Q, bitcoin_service)] (∅, initial_world)).1
         (run_wrapper closed_config Webhook.handle_message
            [(price_update, 0%Q, bitcoin_service)] (∅, initial_world)).2).1.1.
Proof.
  intros H. specialize (H 0%Q).
  assert (Hin : In 0%Q
    (stored_times
       (Webhook.wrapper closed_config Webhook.handle_message price_update 100
          bitcoin_service
          (run_wrapper closed_config Webhook.handle_message
             [(price_update, 0%Q, bitcoin_service)] (∅, initial_world)).1
          (run_wrapper closed_config Webhook.handle_message
             [(price_update, 0%Q, bitcoin_service)] (∅, initial_world)).2).1.1
       7)).
  { vm_compute. left. reflexivity. }
  specialize (H Hin). unfold within_window, Qlt in H. simpl in H. lia.
Qed.

(** ** The price cache *)

Lemma find_absent (key : str) (cache : list (str * quotes)) :
  Lru.find key cache = None -> key ∉ cache.*1.
Proof.
  induction cache as [|[k v] cache IH]; intros H; [apply not_elem_of_nil|].
  cbn [Lru.find] in H. destruct (decide (k = key)) as [->|Hne]; [discriminate|].
  rewrite fmap_cons. cbn [fst]. apply not_elem_of_cons. split; [congruence|].
  now apply IH.
Qed.

Lemma find_retained (key : str) (data : quotes) (others : list str)
    (cache : list (str * quotes)) :
  retained key data others cache -> Lru.find key cache = Some data.
Proof.
  intros (newer & older & -> & Hnot & _ & _).
  induction newer as [|[k v] newer IH]; cbn [app Lru.find].
  - now rewrite decide_True.
  - rewrite fmap_cons in Hnot. cbn [fst] in Hnot.
    apply not_elem_of_cons in Hnot as [Hne Hnot].
    rewrite decide_False by congruence. now apply IH.
Qed.

Lemma filter_keys_subseteq (key : str) (cache : list (str * quotes)) :
  (filter (fun p : str * quotes => p.1 <> key) cache).*1 ⊆ cache.*1.
Proof.
  intros k Hk. apply list_elem_of_fmap in Hk as (p & -> & Hp).
  apply list_elem_of_filter in Hp as [_ Hp]. now apply list_elem_of_fmap_2.
Qed.

Lemma filter_keys_NoDup (key : str) (cache : list (str * quotes)) :
  NoDup cache.*1 ->
  NoDup (filter (fun p : str * quotes => p.1 <> key) cache).*1.
Proof.
  induction cache as [|[k v] cache IH]; intros Hnd; [constructor|].
  rewrite fmap_cons in Hnd. apply NoDup_cons in Hnd as [Hk Hnd].
  destruct (decide (k = key)) as [->|Hne].
  - rewrite filter_cons_False by (cbn; congruence). now apply IH.
  - rewrite filter_cons_True by exact Hne. rewrite fmap_cons.
    apply NoDup_cons. split; [|now apply IH].
    intros Hin. apply Hk. now apply (filter_keys_subseteq key).
Qed.

Lemma filter_keys_gone (key : str) (cache : list (str * quotes)) :
  key ∉ (filter (fun p : str * quotes => p.1 <> key) cache).*1.
Proof.
  intros Hk. apply list_elem_of_fmap in Hk as (p & -> & Hp).
  apply list_elem_of_filter in Hp as [Hp _]. now apply Hp.
Qed.

Lemma distinct_keys_bound (keys others : list str) :
  NoDup keys -> keys ⊆ others ->
  (length keys <= length (remove_dups others))%nat.
Proof.
  intros Hnd Hsub. apply submseteq_length, NoDup_submseteq; [exact Hnd|].
  intros k Hk. apply elem_of_remove_dups. now apply Hsub.
Qed.

Section Retention.

Variables (key : str) (data : quotes) (others : list str).
Hypothesis key_not_other : key ∉ others.
Hypothesis few_others : (length (remove_dups others) < Lru.maxsize)%nat.

Lemma touch_same (cache : list (str * quotes)) :
  retained key data others (Lru.touch key data cache).
Proof.
  exists [], (filter (fun p : str * quotes => p.1 <> key) cache).
  repeat split; [apply not_elem_of_nil|constructor|].
  intros k Hk. now apply not_elem_of_nil in Hk.
Qed.

Lemma store_same (cache : list (str * quotes)) :
  retained key data others (Lru.store key data cache).
Proof.
  exists [], (take (Lru.maxsize - 1) cache).
  repeat split; [apply not_elem_of_nil|constructor|].
  intros k Hk. now apply not_elem_of_nil in Hk.
Qed.

Lemma touch_other (k : str) (v : quotes) (cache : list (str * quotes)) :
  k ∈ others ->
  retained key data others cache ->
  retained key data others (Lru.touch k v cache).
Proof.
  intros Hk (newer & older & -> & Hnot & Hnd & Hsub).
  assert (Hne : k <> key) by (intros ->; now apply key_not_other).
  exists ((k, v) :: filter (fun p : str * quotes => p.1 <> k) newer),
         (filter (fun p : str * quotes => p.1 <> k) older).
  split; [|split; [|split]].
  - unfold Lru.touch. rewrite filter_app.
    rewrite filter_cons_True by (cbn; congruence). reflexivity.
  - rewrite fmap_cons. cbn [fst]. apply not_elem_of_cons. split; [congruence|].
    intros Hin. apply Hnot. now apply (filter_keys_subseteq k).
  - rewrite fmap_cons. cbn [fst]. apply NoDup_cons. split.
    + apply filter_keys_gone.
    + now apply filter_keys_NoDup.
  - rewrite fmap_cons. cbn [fst]. intros x Hx.
    apply elem_of_cons in Hx as [->|Hx]; [exact Hk|].
    apply Hsub. now apply (filter_keys_subseteq k).
Qed.

Lemma store_other (k : str) (v : quotes) (cache : list (str * quotes)) :
  k ∈ others ->
  Lru.find k cache = None ->
  retained key data others cache ->
  retained key data others (Lru.store k v cache).
Proof.
  intros Hk Hmiss (newer & older & -> & Hnot & Hnd & Hsub).
  apply find_absent in Hmiss.
  rewrite fmap_app in Hmiss. apply not_elem_of_app in Hmiss as [Hmiss _].
  assert (Hnd' : NoDup ((k, v) :: newer).*1).
  { rewrite fmap_cons. apply NoDup_cons. now split. }
  assert (Hsub' : ((k, v) :: newer).*1 ⊆ others).
  { rewrite fmap_cons. cbn [fst]. intros x Hx.
    apply elem_of_cons in Hx as [->|Hx]; [exact Hk|now apply Hsub]. }
  pose proof (distinct_keys_bound _ _ Hnd' Hsub') as Hlen.
  rewrite length_fmap in Hlen.
  exists ((k, v) :: newer),
         (take (Lru.maxsize - length ((k, v) :: newer) - 1) older).
  split; [|split; [|split; [exact Hnd'|exact Hsub']]].
  - unfold Lru.store.
    change ((k, v) :: newer ++ (key, data) :: older)
      with (((k, v) :: newer) ++ (key, data) :: older).
    rewrite take_app, take_ge by lia.
    destruct (Lru.maxsize - length ((k, v) :: newer))%nat as [|n] eqn:E;
      [lia|].
    cbn [take]. now replace (S n - 1)%nat with n by lia.
  - rewrite fmap_cons. cbn [fst]. apply not_elem_of_cons. split; [|exact Hnot].
    intros ->. now apply key_not_other.
Qed.

Lemma lookup_retains (svc : Services) (k : str) (w : World) :
  k = key \/ k ∈ others ->
  retained key data others (price_cache w) ->
  retained key data others
    (price_cache (Webhook.get_cached_crypto_prices svc k w).1).
Proof.
  intros Hk Hret. unfold Webhook.get_cached_crypto_prices.
  destruct Hk as [->|Hk].
  - rewrite (find_retained _ _ _ _ Hret). cbn. apply touch_same.
  - destruct (Lru.find k (price_cache w)) as [v|] eqn:E; cbn.
    + now apply touch_other.
    + now apply store_other.
Qed.

Lemma run_lookups_retains (history : list (Services * str)) (w : World) :
  (forall k, k ∈ history.*2 -> k = key \/ k ∈ others) ->
  retained key data others (price_cache w) ->
  retained key data others (price_cache (run_lookups history w)).
Proof.
  revert w. induction history as [|[svc k] history IH]; intros w Hks Hret;
    [exact Hret|].
  unfold run_lookups. cbn [fold_left]. apply IH.
  - intros k' Hk'. apply Hks. rewrite fmap_cons. now apply elem_of_cons; right.
  - apply lookup_retains; [|exact Hret].
    apply Hks. rewrite fmap_cons. apply elem_of_cons. now left.
Qed.

End Retention.

Lemma lookup_caches (svc : Services) (key : str) (w : World) (others : list str) :
  retained key (Webhook.get_cached_crypto_prices svc key w).2 others
    (price_cache (Webhook.get_cached_crypto_prices svc key w).1).
Proof.
  unfold Webhook.get_cached_crypto_prices.
  destruct (Lru.find key (price_cache w)) as [v|]; cbn.
  - apply touch_same.
  - apply store_same.
Qed.

Lemma hit_no_request (svc : Services) (key : str) (data : quotes) (w : World) :
  Lru.find key (price_cache w) = Some data ->
  (Webhook.get_cached_crypto_prices svc key w).2 = data /\
  http_log (Webhook.get_cached_crypto_prices svc key w).1 = http_log w.
Proof.
  intros H. unfold Webhook.get_cached_crypto_prices. rewrite H. now split.
Qed.

Lemma miss_one_request (svc : Services) (key : str) (w : World) :
  Lru.find key (price_cache w) = None ->
  http_log (Webhook.get_cached_crypto_prices svc key w).1 = http_log w ++ [key].
Proof.
  intros H. unfold Webhook.get_cached_crypto_prices. now rewrite H.
Qed.

Lemma other_keys_cover (key : str) (history : list (Services * str)) (k : str) :
  k ∈ history.*2 ->
  k = key \/ k ∈ filter (fun k => k <> key) (history.*2).
Proof.
  intros Hk. destruct (decide (k = key)) as [->|Hne]; [now left|right].
  now apply list_elem_of_filter.
Qed.

(** An entry stays in the cache, and answers without a request, while
    fewer than [maxsize] distinct other keys have been looked up since
    its last use. *)
Lemma cached_until_evicted (svc' : Services) (key : str) (data : quotes)
    (history : list (Services * str)) (w1 : World) :
  (forall others, retained key data others (price_cache w1)) ->
  (length (other_keys key history) < Lru.maxsize)%nat ->
  (Webhook.get_cached_crypto_prices svc' key (run_lookups history w1)).2 = data
  /\ http_log (Webhook.get_cached_crypto_prices svc' key
                 (run_lookups history w1)).1
     = http_log (run_lookups history w1).
Proof.
  intros Hret Hfew. apply hit_no_request.
  apply find_retained with (filter (fun k => k <> key) (history.*2)).
  apply run_lookups_retains.
  - intros Hin. apply list_elem_of_filter in Hin as [Hne _]. now apply Hne.
  - exact Hfew.
  - apply other_keys_cover.
  - apply Hret.
Qed.

(** C5. The price client looks its data up under the lowercased
    comma-joined identifiers, in the order given, and the keys of
    [btc, eth] and [eth, btc] differ.  The cache matches keys exactly:
    a key it does not hold costs one GET, a key it holds costs none.
    A lookup repeated under the same key returns the response of the
    first lookup and issues no GET, also when fewer than 100 distinct
    other keys are looked up in between. *)
Theorem price_cache_exact_match (svc svc' : Services) (key : str) (w : World) :
  let first := Webhook.get_cached_crypto_prices svc key w in
  let again := Webhook.get_cached_crypto_prices svc' key first.1 in
  (again.2 = first.2 /\ http_log again.1 = http_log first.1)
  /\ (forall history,
        (length (other_keys key history) < Lru.maxsize)%nat ->
        let w2 := run_lookups history first.1 in
        (Webhook.get_cached_crypto_prices svc' key w2).2 = first.2 /\
        http_log (Webhook.get_cached_crypto_prices svc' key w2).1 = http_log w2)
  /\ (forall crypto_ids,
        (Webhook.get_crypto_prices svc crypto_ids w).1 =
        (Webhook.get_cached_crypto_prices svc
           (lower (join (lit ",") crypto_ids)) w).1)
  /\ lower (join (lit ",") [lit "btc"; lit "eth"])
       <> lower (join (lit ",") [lit "eth"; lit "btc"])
  /\ (Lru.find key (price_cache w) = None ->
      http_log first.1 = http_log w ++ [key])
  /\ (forall data,
        Lru.find key (price_cache w) = Some data ->
        first.2 = data /\ http_log first.1 = http_log w).
Proof.
  intros first again.
  assert (Hlater : forall history,
             (length (other_keys key history) < Lru.maxsize)%nat ->
             (Webhook.get_cached_crypto_prices svc' key
                (run_lookups history first.1)).2 = first.2 /\
             http_log (Webhook.get_cached_crypto_prices svc' key
                         (run_lookups history first.1)).1
               = http_log (run_lookups history first.1)).
  { intros history Hfew. apply cached_until_evicted; [|exact Hfew].
    intros others. apply lookup_caches. }
  split; [|split; [|split; [|split; [|split]]]].
  - apply (Hlater []). unfold Lru.maxsize. cbn. lia.
  - exact Hlater.
  - clear. intros crypto_ids. unfold Webhook.get_crypto_prices.
    destruct (Webhook.get_cached_crypto_prices _ _ _) as [w' d].
    now destruct (Webhook.price_loop _ _ _).
  - discriminate.
  - apply miss_one_request.
  - intros data. apply hit_no_request.
Qed.

Lemma price_cache_exact_match_witness :
  (Webhook.get_cached_crypto_prices failing_service (lit "bitcoin")
     (run_lookups [(failing_service, lit "ethereum")]
        (Webhook.get_cached_crypto_prices bitcoin_service (lit "bitcoin")
           initial_world).1)).2
  = bitcoin_quote.
Proof.
  refine (proj1 (proj1 (proj2 (price_cache_exact_match bitcoin_service
                                 failing_service (lit "bitcoin") initial_world))
                       [(failing_service, lit "ethereum")] _)).
  vm_compute. lia.
Defined.

(** The order of the identifiers matters to the cache: after a lookup
    of [btc, eth], a lookup of [eth, btc] goes to the network again,
    while a second lookup of [btc, eth] does not. *)
Example order_sensitive_cache :
  let w1 := (Webhook.get_crypto_prices bitcoin_service [lit "btc"; lit "eth"]
               initial_world).1 in
  http_log w1 = [lit "btc,eth"] /\
  http_log (Webhook.get_crypto_prices bitcoin_service [lit "eth"; lit "btc"] w1).1
    = [lit "btc,eth"; lit "eth,btc"] /\
  http_log (Webhook.get_crypto_prices bitcoin_service [lit "BTC"; lit "eth"] w1).1
    = [lit "btc,eth"].
Proof. vm_compute. repeat split. Qed.

(** C7. When the key is not cached and the GET fails with a
    RequestException, the raw lookup returns the empty mapping, and the
    price client called with identifiers that join to this key returns
    "No prices found.". *)
Theorem failed_fetch_no_prices (svc : Services) (key : str) (w : World) :
  Lru.find key (price_cache w) = None ->
  requests_get svc key = RequestException ->
  (Webhook.get_cached_crypto_prices svc key w).2 = ∅
  /\ forall crypto_ids,
       lower (join (lit ",") crypto_ids) = key ->
       (Webhook.get_crypto_prices svc crypto_ids w).2 = lit "No prices found.".
Proof.
  intros Hmiss Hfail.
  assert (Hraw : (Webhook.get_cached_crypto_prices svc key w).2 = ∅).
  { unfold Webhook.get_cached_crypto_prices. now rewrite Hmiss, Hfail. }
  split; [exact Hraw|]. intros crypto_ids Hkey.
  unfold Webhook.get_crypto_prices. rewrite Hkey.
  destruct (Webhook.get_cached_crypto_prices svc key w) as [w' data].
  cbn [snd] in Hraw. subst data.
  assert (Hloop : forall ids prices,
             Webhook.price_loop ∅ ids prices = Some prices).
  { induction ids as [|i ids IH]; intros prices; [reflexivity|].
    cbn [Webhook.price_loop]. rewrite lookup_empty. apply IH. }
  now rewrite Hloop.
Qed.

Lemma failed_fetch_no_prices_witness :
  (Webhook.get_crypto_prices failing_service [lit "bitcoin"; lit "ethereum"]
     initial_world).2 = lit "No prices found.".
Proof.
  refine (proj2 (failed_fetch_no_prices failing_service
                   (lit "bitcoin,ethereum") initial_world _ _)
                [lit "bitcoin"; lit "ethereum"] _); reflexivity.
Defined.

(** C10. The empty mapping of a failed fetch is stored like any other
    result: the failed lookup costs one GET and leaves [{}] under its
    key, and a later lookup of the key, with fewer than 100 distinct
    other keys looked up in between, returns [{}] without a GET,
    whatever the quote service would answer by then. *)
Theorem failed_fetch_is_cached (svc svc' : Services) (key : str) (w : World)
    (history : list (Services * str)) :
  Lru.find key (price_cache w) = None ->
  requests_get svc key = RequestException ->
  (length (other_keys key history) < Lru.maxsize)%nat ->
  let first := Webhook.get_cached_crypto_prices svc key w in
  let w2 := run_lookups history first.1 in
  let again := Webhook.get_cached_crypto_prices svc' key w2 in
  first.2 = ∅ /\ http_log first.1 = http_log w ++ [key]
  /\ Lru.find key (price_cache first.1) = Some ∅
  /\ again.2 = ∅ /\ http_log again.1 = http_log w2.
Proof.
  intros Hmiss Hfail Hfew first w2 again.
  assert (Hraw : first.2 = ∅).
  { unfold first, Webhook.get_cached_crypto_prices. now rewrite Hmiss, Hfail. }
  assert (Hret : forall others, retained key ∅ others (price_cache first.1)).
  { intros others. rewrite <- Hraw. apply lookup_caches. }
  split; [exact Hraw|]. split; [now apply miss_one_request|].
  split; [now apply find_retained with []|].
  now apply cached_until_evicted.
Qed.

Lemma failed_fetch_is_cached_witness :
  (Webhook.get_cached_crypto_prices bitcoin_service (lit "bitcoin")
     (run_lookups [(bitcoin_service, lit "ethereum")]
        (Webhook.get_cached_crypto_prices failing_service (lit "bitcoin")
           initial_world).1)).2 = ∅.
Proof.
  refine (proj1 (proj2 (proj2 (proj2
            (failed_fetch_is_cached failing_service bitcoin_service
               (lit "bitcoin") initial_world
               [(bitcoin_service, lit "ethereum")] _ _ _))))).
  - reflexivity.
  - reflexivity.
  - vm_compute. lia.
Defined.

(** The entry does go once one hundred other keys have been stored: the
    next lookup of the key issues a GET again. *)
Example failed_fetch_evicted :
  let w1 := (Webhook.get_cached_crypto_prices failing_service (lit "bitcoin")
               initial_world).1 in
  let w2 := run_lookups hundred_lookups w1 in
  Lru.find (lit "bitcoin") (price_cache w2) = None /\
  length (price_cache w2) = 100%nat /\
  length (http_log (Webhook.get_cached_crypto_prices bitcoin_service
                      (lit "bitcoin") w2).1) = 102%nat.
Proof. vm_compute. repeat split. Qed.

(** ** The two variants *)

Lemma get_cached_variants_agree (svc : Services) (crypto_ids : str) (w : World) :
  Polling.get_cached_crypto_prices svc crypto_ids w =
  Webhook.get_cached_crypto_prices svc crypto_ids w.
Proof. reflexivity. Qed.

Lemma get_crypto_prices_variants_agree (svc : Services)
    (crypto_ids : list str) (w : World) :
  Polling.get_crypto_prices svc crypto_ids w =
  Webhook.get_crypto_prices svc crypto_ids w.
Proof. reflexivity. Qed.

Lemma ask_gemini_variants (svc : Services) (question : str) (w : World) :
  (~ generation_fails svc question ->
   Polling.ask_gemini svc question w = Webhook.ask_gemini svc question w)
  /\
  (generation_fails svc question ->
   Webhook.ask_gemini svc question w
     = (log_gemini (prompt_for question) w, lit "Query processing failed.")
   /\ Polling.ask_gemini svc question w
     = (log_gemini (prompt_for question) w,
        lit "Gemini query processing failed.")).
Proof.
  unfold generation_fails, Polling.ask_gemini, Webhook.ask_gemini.
  change Polling.system_prompt with Webhook.system_prompt.
  change Polling.newline with Webhook.newline.
  fold (prompt_for question).
  destruct question as [|c question]; cbn [orb].
  - split; [reflexivity|]. intros [Hne _]. congruence.
  - destruct (1000 <? length (c :: question))%nat eqn:Hlen.
    + split; [reflexivity|]. intros (_ & Hle & _).
      apply Nat.ltb_lt in Hlen. lia.
    + apply Nat.ltb_ge in Hlen.
      destruct (generate_content svc (prompt_for (c :: question))) as [text|].
      * split; [reflexivity|]. intros (_ & _ & H). discriminate.
      * split; [|now split]. intros H. exfalso. apply H.
        repeat split; [discriminate|exact Hlen].
Qed.

(** C8 (amended). The rate limiter, the cached lookup and the price
    client of the two variants return the same results for every input.
    The assistant client and the router return the same results
    whenever the generation service, if asked, does not raise; when it
    raises, the webhook variant answers "Query processing failed." and
    the polling variant "Gemini query processing failed.", the worlds
    still agreeing. *)
Theorem two_variants_same_core (cfg : Config) (update : Update)
    (current_time : Q) (svc : Services) (request_times : gmap Z (list Q))
    (w : World) (crypto_ids : list str) (question : str) :
  (forall (R : Type) (func : Update -> Services -> World -> World * R),
      Polling.wrapper cfg func update current_time svc request_times w =
      Webhook.wrapper cfg func update current_time svc request_times w)
  /\ (forall key,
        Polling.get_cached_crypto_prices svc key w =
        Webhook.get_cached_crypto_prices svc key w)
  /\ Polling.get_crypto_prices svc crypto_ids w =
     Webhook.get_crypto_prices svc crypto_ids w
  /\ (~ generation_fails svc question ->
      Polling.ask_gemini svc question w = Webhook.ask_gemini svc question w)
  /\ (generation_fails svc question ->
      (Webhook.ask_gemini svc question w).2 = lit "Query processing failed."
      /\ (Polling.ask_gemini svc question w).2
         = lit "Gemini query processing failed."
      /\ (Polling.ask_gemini svc question w).1
         = (Webhook.ask_gemini svc question w).1)
  /\ (contains (lit "price of") (lower (message_text update)) = true
      \/ ~ generation_fails svc (lower (message_text update)) ->
      Polling.handle_message update svc w = Webhook.handle_message update svc w).
Proof.
  split; [intros R func; apply wrapper_variants_agree|].
  split; [intros key; apply get_cached_variants_agree|].
  split; [apply get_crypto_prices_variants_agree|].
  split; [apply ask_gemini_variants|].
  split.
  - intros H. destruct (proj2 (ask_gemini_variants svc question w) H) as [-> ->].
    now repeat split.
  - intros H. unfold Polling.handle_message, Webhook.handle_message.
    destruct (contains (lit "price of") (lower (message_text update))) eqn:E.
    + reflexivity.
    + destruct H as [H|H]; [discriminate|].
      now rewrite (proj1 (ask_gemini_variants svc _ w) H).
Qed.

Lemma two_variants_same_core_witness :
  Polling.handle_message price_update bitcoin_service initial_world
    = Webhook.handle_message price_update bitcoin_service initial_world
  /\ Polling.ask_gemini failing_service (lit "what is a smart contract")
       initial_world
     = Webhook.ask_gemini failing_service (lit "what is a smart contract")
         initial_world.
Proof.
  pose proof (two_variants_same_core default_config price_update 0 bitcoin_service ∅
                initial_world [] (lit "hello")) as (_ & _ & _ & _ & _ & Hroute).
  pose proof (two_variants_same_core default_config price_update 0 failing_service ∅
                initial_world [] (lit "what is a smart contract"))
    as (_ & _ & _ & Hask & _).
  split.
  - apply Hroute. left. reflexivity.
  - apply Hask. intros (_ & _ & H). discriminate H.
Defined.

(** The claim as first stated fails where the generation service
    raises: the two assistant clients, and with them the two routers,
    answer with different strings. *)
Lemma variants_differ_on_generation_failure :
  (Webhook.ask_gemini bitcoin_service (lit "hello") initial_world).2
    = lit "Query processing failed."
  /\ (Polling.ask_gemini bitcoin_service (lit "hello") initial_world).2
    = lit "Gemini query processing failed."
  /\ Webhook.ask_gemini bitcoin_service (lit "hello") initial_world
     <> Polling.ask_gemini bitcoin_service (lit "hello") initial_world
  /\ Webhook.handle_message
       {| effective_user_id := 7; message_text := lit "hello" |}
       bitcoin_service initial_world
     <> Polling.handle_message
          {| effective_user_id := 7; message_text := lit "hello" |}
          bitcoin_service initial_world.
Proof.
  split; [reflexivity|]. split; [reflexivity|]. split.
  - intros H. apply (f_equal snd) in H. vm_compute in H. discriminate H.
  - intros H. apply (f_equal (fun r => sent r.1)) in H.
    vm_compute in H. discriminate H.
Qed.

(** ** The rate limiter over a history *)

Lemma passes_iff (cfg : Config) (now t : Q) :
  passes cfg now t = true <-> within_window cfg now t.
Proof. apply Qlt_bool_iff. Qed.

Section WrapperCases.

Context {R : Type}.
Variable cfg : Config.
Variable func : Update -> Services -> World -> World * R.
Variables (update : Update) (current_time : Q) (svc : Services).
Variables (request_times : gmap Z (list Q)) (w : World).

Local Abbreviation user_id := (effective_user_id update).
Local Abbreviation result :=
  (Webhook.wrapper cfg func update current_time svc request_times w).

Lemma wrapper_rejects (times : list Q) :
  request_times !! user_id = Some times ->
  MAX_REQUESTS_PER_WINDOW cfg <= recent_count cfg current_time times ->
  result =
    (request_times,
     reply_text
       (lit "Too many requests. Please wait before sending more messages.") w,
     None).
Proof.
  intros H Hmax. unfold Webhook.wrapper, recent_count, passes in *. rewrite H.
  cbv beta iota zeta.
  destruct (Z.geb_spec
              (Z.of_nat (length (List.filter
                 (fun t => Qlt_bool (current_time - t)
                             (inject_Z (RATE_LIMIT_WINDOW cfg))) times)))
              (MAX_REQUESTS_PER_WINDOW cfg)) as [_|Hlt];
    [reflexivity|lia].
Qed.

Lemma wrapper_accepts (times : list Q) :
  request_times !! user_id = Some times ->
  recent_count cfg current_time times < MAX_REQUESTS_PER_WINDOW cfg ->
  result =
    (<[user_id := List.filter (passes cfg current_time) times
                    ++ [current_time]]> request_times,
     (func update svc w).1, Some (func update svc w).2).
Proof.
  intros H Hmax. unfold Webhook.wrapper, recent_count, passes in *. rewrite H.
  cbv beta iota zeta.
  destruct (Z.geb_spec
              (Z.of_nat (length (List.filter
                 (fun t => Qlt_bool (current_time - t)
                             (inject_Z (RATE_LIMIT_WINDOW cfg))) times)))
              (MAX_REQUESTS_PER_WINDOW cfg)) as [Hge|_]; [lia|].
  now destruct (func update svc w).
Qed.

Lemma wrapper_frame (other : Z) :
  other <> user_id -> result.1.1 !! other = request_times !! other.
Proof.
  intros Hne. unfold Webhook.wrapper.
  destruct (request_times !! user_id) as [times|] eqn:E.
  - destruct (Z.of_nat _ >=? _); [reflexivity|].
    destruct (func update svc w). cbn [fst].
    now rewrite lookup_insert_ne by congruence.
  - destruct (func update svc w). cbn [fst].
    now rewrite lookup_insert_ne by congruence.
Qed.

Lemma wrapper_capped :
  capped cfg request_times -> capped cfg result.1.1.
Proof.
  intros Hc.
  destruct (request_times !! user_id) as [times|] eqn:E.
  - destruct (Z_lt_le_dec (recent_count cfg current_time times)
                          (MAX_REQUESTS_PER_WINDOW cfg)) as [Hlt|Hge].
    + rewrite (wrapper_accepts _ E Hlt). cbn [fst]. intros u l Hl.
      destruct (decide (user_id = u)) as [<-|Hne].
      * rewrite lookup_insert_eq in Hl. injection Hl as <-.
        unfold recent_count in Hlt. rewrite length_app. cbn [length]. lia.
      * rewrite lookup_insert_ne in Hl by exact Hne. now apply Hc with u.
    + now rewrite (wrapper_rejects _ E Hge).
  - rewrite (wrapper_absent cfg func update current_time svc request_times w E).
    cbn [fst]. intros u l Hl.
    destruct (decide (user_id = u)) as [<-|Hne].
    + rewrite lookup_insert_eq in Hl. injection Hl as <-. cbn [length]. lia.
    + rewrite lookup_insert_ne in Hl by exact Hne. now apply Hc with u.
Qed.

End WrapperCases.

Section LimiterHistory.

Context {R : Type}.
Variable cfg : Config.
Variable func : Update -> Services -> World -> World * R.

Lemma run_wrapper_cons (update : Update) (current_time : Q) (svc : Services)
    (rest : list (Update * Q * Services)) (st : gmap Z (list Q) * World) :
  run_wrapper cfg func ((update, current_time, svc) :: rest) st =
  run_wrapper cfg func rest
    (Webhook.wrapper cfg func update current_time svc st.1 st.2).1.
Proof. reflexivity. Qed.

Lemma run_wrapper_capped (history : list (Update * Q * Services))
    (st : gmap Z (list Q) * World) :
  capped cfg st.1 -> capped cfg (run_wrapper cfg func history st).1.
Proof.
  revert st. induction history as [|[[update current_time] svc] rest IH];
    intros st Hc; [exact Hc|].
  rewrite run_wrapper_cons. apply IH. now apply wrapper_capped.
Qed.

Lemma capped_initial : capped cfg ∅.
Proof. intros u l H. now rewrite lookup_empty in H. Qed.

End LimiterHistory.

Lemma filter_none {A : Type} (f : A -> bool) (l : list A) :
  (forall x, In x l -> f x = false) -> List.filter f l = [].
Proof.
  induction l as [|a l IH]; intros H; [reflexivity|]. cbn [List.filter].
  rewrite (H a (or_introl eq_refl)). apply IH. intros x Hx. apply H. now right.
Qed.

(** X3. A user whose stored timestamps have all left the window is
    accepted again without any reset: the old timestamps are dropped
    and only the new one is stored (limit at least 1). *)
Theorem limiter_recovers_after_window {R : Type} (cfg : Config)
    (func : Update -> Services -> World -> World * R)
    (update : Update) (now : Q) (svc : Services)
    (request_times : gmap Z (list Q)) (w : World) (times : list Q) :
  1 <= MAX_REQUESTS_PER_WINDOW cfg ->
  request_times !! effective_user_id update = Some times ->
  (forall t, In t times -> ~ within_window cfg now t) ->
  Webhook.wrapper cfg func update now svc request_times w =
    (<[effective_user_id update := [now]]> request_times,
     (func update svc w).1, Some (func update svc w).2)
  /\
  Polling.wrapper cfg func update now svc request_times w =
    (<[effective_user_id update := [now]]> request_times,
     (func update svc w).1, Some (func update svc w).2).
Proof.
  intros Hmax E Hold.
  assert (Hnone : List.filter (passes cfg now) times = []).
  { apply filter_none. intros t Ht.
    destruct (passes cfg now t) eqn:Ep; [|reflexivity].
    apply passes_iff in Ep. now apply Hold in Ep. }
  assert (Hw : Webhook.wrapper cfg func update now svc request_times w =
               (<[effective_user_id update := [now]]> request_times,
                (func update svc w).1, Some (func update svc w).2)).
  { rewrite (wrapper_accepts cfg func update now svc request_times w _ E).
    - now rewrite Hnone.
    - unfold recent_count. rewrite Hnone. cbn [length]. lia. }
  split; [exact Hw|].
  now rewrite <- (wrapper_variants_agree cfg func update now svc
                    request_times w) in Hw.
Qed.

Lemma limiter_recovers_after_window_witness :
  (Webhook.wrapper strict_config Webhook.handle_message price_update 200
     bitcoin_service seen_twice initial_world).1.1
  = <[7 := [200 # 1]]> seen_twice.
Proof.
  assert (Hmax : 1 <= MAX_REQUESTS_PER_WINDOW strict_config)
    by (simpl; lia).
  assert (Hold : forall t, In t [50 # 1; 70 # 1] ->
                           ~ within_window strict_config 200 t)
    by (intros t [<-|[<-|[]]]; unfold within_window, Qlt; simpl; lia).
  rewrite (proj1 (limiter_recovers_after_window strict_config
                    Webhook.handle_message price_update 200 bitcoin_service
                    seen_twice initial_world [50 # 1; 70 # 1]
                    Hmax eq_refl Hold)).
  reflexivity.
Defined.

Section Isolation.

Context {R : Type}.
Variable cfg : Config.
Variable func : Update -> Services -> World -> World * R.

(** What the wrapper does to the entry of the requesting user, and
    whether it rejects, depends on that entry alone. *)
Lemma wrapper_local (update : Update) (current_time : Q) (svc svc' : Services)
    (rt rt' : gmap Z (list Q)) (w w' : World) :
  rt !! effective_user_id update = rt' !! effective_user_id update ->
  (Webhook.wrapper cfg func update current_time svc rt w).1.1
    !! effective_user_id update
  = (Webhook.wrapper cfg func update current_time svc' rt' w').1.1
      !! effective_user_id update
  /\ ((Webhook.wrapper cfg func update current_time svc rt w).2 = None <->
      (Webhook.wrapper cfg func update current_time svc' rt' w').2 = None).
Proof.
  intros H. unfold Webhook.wrapper. rewrite <- H.
  destruct (rt !! effective_user_id update) as [times|] eqn:E.
  - destruct (Z.of_nat _ >=? _).
    + cbn [fst snd]. split; [congruence|tauto].
    + destruct (func update svc w), (func update svc' w'). cbn [fst snd].
      rewrite !lookup_insert_eq. split; [reflexivity|].
      split; discriminate.
  - destruct (func update svc w), (func update svc' w'). cbn [fst snd].
    rewrite !lookup_insert_eq. split; [reflexivity|]. split; discriminate.
Qed.

Lemma run_wrapper_isolated (history : list (Update * Q * Services))
    (user_id : Z) (st st' : gmap Z (list Q) * World) :
  st.1 !! user_id = st'.1 !! user_id ->
  (run_wrapper cfg func history st).1 !! user_id
  = (run_wrapper cfg func (requests_of user_id history) st').1 !! user_id
  /\ accepted_times cfg func history st user_id
     = accepted_times cfg func (requests_of user_id history) st' user_id.
Proof.
  revert st st'.
  induction history as [|[[update current_time] svc] rest IH];
    intros st st' H; [now split|].
  unfold requests_of. cbn [List.filter]. fold (requests_of user_id rest).
  rewrite run_wrapper_cons. cbn [accepted_times].
  destruct (decide (effective_user_id update = user_id)) as [<-|Hne].
  - rewrite bool_decide_eq_true_2 by reflexivity.
    rewrite run_wrapper_cons. cbn [accepted_times].
    rewrite decide_True by reflexivity.
    destruct (wrapper_local update current_time svc svc st.1 st'.1 st.2 st'.2 H)
      as [Hentry Hdec].
    destruct (IH _ _ Hentry) as [IH1 IH2].
    split; [exact IH1|]. rewrite IH2. f_equal.
    destruct (Webhook.wrapper cfg func update current_time svc st.1 st.2).2,
             (Webhook.wrapper cfg func update current_time svc st'.1 st'.2).2;
      try reflexivity.
    + destruct Hdec as [_ Hdec]. now specialize (Hdec eq_refl).
    + destruct Hdec as [Hdec _]. now specialize (Hdec eq_refl).
  - rewrite bool_decide_eq_false_2 by exact Hne.
    assert (Hentry :
      (Webhook.wrapper cfg func update current_time svc st.1 st.2).1.1
        !! user_id = st'.1 !! user_id).
    { rewrite wrapper_frame by congruence. exact H. }
    destruct (IH _ st' Hentry) as [IH1 IH2].
    split; [exact IH1|]. rewrite <- IH2.
    now destruct (Webhook.wrapper cfg func update current_time svc st.1 st.2).2.
Qed.

End Isolation.

(** X4. Users do not affect one another at a limiter: the timestamps
    stored for a user and the requests of that user that are accepted
    are the same whether or not the requests of all other users are
    delivered, and whatever the handler does to the world. *)
Theorem limiter_isolates_users {R : Type} (cfg : Config)
    (func : Update -> Services -> World -> World * R)
    (history : list (Update * Q * Services)) (user_id : Z) (w w' : World) :
  (run_wrapper cfg func history (∅, w)).1 !! user_id
  = (run_wrapper cfg func (requests_of user_id history) (∅, w')).1 !! user_id
  /\ accepted_times cfg func history (∅, w) user_id
     = accepted_times cfg func (requests_of user_id history) (∅, w') user_id.
Proof. now apply run_wrapper_isolated. Qed.

(** X5. However the limiter is configured and whatever it has seen, a
    stored list is never empty and never longer than
    MAX_REQUESTS_PER_WINDOW (than 1, for a limit below 1): the memory
    kept per user is bounded. *)
Theorem stored_times_capped {R : Type} (cfg : Config)
    (func : Update -> Services -> World -> World * R)
    (history : list (Update * Q * Services)) (w : World)
    (user_id : Z) (times : list Q) :
  (run_wrapper cfg func history (∅, w)).1 !! user_id = Some times ->
  1 <= Z.of_nat (length times) <= Z.max 1 (MAX_REQUESTS_PER_WINDOW cfg).
Proof.
  intros H.
  apply (run_wrapper_capped cfg func history (∅, w) (capped_initial cfg)
           user_id times H).
Qed.

Lemma stored_times_capped_witness :
  1 <= Z.of_nat (length [0%Q]) <= Z.max 1 (MAX_REQUESTS_PER_WINDOW closed_config).
Proof.
  apply (stored_times_capped closed_config Webhook.handle_message
           [(price_update, 0%Q, bitcoin_service);
            (price_update, 5%Q, bitcoin_service)] initial_world 7 [0%Q]).
  vm_compute. reflexivity.
Defined.

(** ** The price cache over a history *)

Lemma find_present (key : str) (cache : list (str * quotes)) :
  key ∈ cache.*1 -> is_Some (Lru.find key cache).
Proof.
  induction cache as [|[k v] cache IH]; intros H.
  - now apply not_elem_of_nil in H.
  - cbn [Lru.find]. destruct (decide (k = key)) as [->|Hne]; [now eexists|].
    rewrite fmap_cons in H. cbn [fst] in H.
    apply elem_of_cons in H as [->|H]; [congruence|now apply IH].
Qed.

Lemma find_Some_key (key : str) (data : quotes) (cache : list (str * quotes)) :
  Lru.find key cache = Some data -> (key, data) ∈ cache.
Proof.
  induction cache as [|[k v] cache IH]; intros H; [discriminate|].
  cbn [Lru.find] in H. destruct (decide (k = key)) as [->|Hne].
  - injection H as ->. apply elem_of_cons. now left.
  - apply elem_of_cons. right. now apply IH.
Qed.

Lemma touch_cache_ok (key : str) (data : quotes) (cache : list (str * quotes)) :
  Lru.find key cache = Some data ->
  cache_ok cache -> cache_ok (Lru.touch key data cache).
Proof.
  intros Hfind [Hlen Hnd]. unfold Lru.touch. split.
  - cbn [length].
    pose proof (length_filter_lt (fun p : str * quotes => p.1 <> key) cache
                  (key, data) (find_Some_key _ _ _ Hfind)) as Hlt.
    cbn [fst] in Hlt. specialize (Hlt (fun H => H eq_refl)). lia.
  - rewrite fmap_cons. apply NoDup_cons. split.
    + apply filter_keys_gone.
    + now apply filter_keys_NoDup.
Qed.

Lemma store_cache_ok (key : str) (data : quotes) (cache : list (str * quotes)) :
  Lru.find key cache = None ->
  cache_ok cache -> cache_ok (Lru.store key data cache).
Proof.
  intros Hfind [Hlen Hnd]. unfold Lru.store. split.
  - rewrite length_take. lia.
  - rewrite fmap_take. apply (sublist_NoDup _ ((key, data) :: cache).*1).
    + rewrite fmap_cons. apply NoDup_cons. split; [|exact Hnd].
      now apply find_absent.
    + apply sublist_take.
Qed.

Lemma lookup_cache_ok (svc : Services) (key : str) (w : World) :
  cache_ok (price_cache w) ->
  cache_ok (price_cache (Webhook.get_cached_crypto_prices svc key w).1).
Proof.
  intros Hok. unfold Webhook.get_cached_crypto_prices.
  destruct (Lru.find key (price_cache w)) as [data|] eqn:E; cbn.
  - now apply touch_cache_ok.
  - now apply store_cache_ok.
Qed.

(** X6. Whatever is looked up, and whatever the quote service answers,
    the cache never holds more than 100 entries and never two entries
    under one key. *)
Theorem cache_never_exceeds_capacity (history : list (Services * str)) :
  (length (price_cache (run_lookups history initial_world)) <= 100)%nat /\
  NoDup ((price_cache (run_lookups history initial_world)).*1).
Proof.
  change 100%nat with Lru.maxsize.
  assert (H : forall w, cache_ok (price_cache w) ->
                        cache_ok (price_cache (run_lookups history w))).
  { induction history as [|[svc key] rest IH]; intros w Hok; [exact Hok|].
    unfold run_lookups. cbn [fold_left]. apply IH. now apply lookup_cache_ok. }
  apply H. split; [cbn; unfold Lru.maxsize; lia|constructor].
Qed.

Section WorkingSet.

Variable all_keys : list str.
Hypothesis fits : (length (remove_dups all_keys) <= Lru.maxsize)%nat.

Lemma lookup_fetched_once (svc : Services) (key : str) (w : World) :
  key ∈ all_keys ->
  http_log w ⊆ all_keys ->
  fetched_once w ->
  fetched_once (Webhook.get_cached_crypto_prices svc key w).1
  /\ forall k, k ∈ http_log (Webhook.get_cached_crypto_prices svc key w).1
               <-> k ∈ http_log w \/ k = key.
Proof.
  intros Hkey Hsub (Hlog & Hnd & Hsame).
  unfold Webhook.get_cached_crypto_prices.
  destruct (Lru.find key (price_cache w)) as [data|] eqn:E;
    unfold fetched_once;
    cbn [fst snd price_cache http_log set_cache log_http].
  - assert (Hin : key ∈ (price_cache w).*1).
    { apply find_Some_key in E. now apply (list_elem_of_fmap_2 fst) in E. }
    split; [split; [exact Hlog|split]|].
    + unfold Lru.touch. rewrite fmap_cons. apply NoDup_cons. split.
      * apply filter_keys_gone.
      * now apply filter_keys_NoDup.
    + intros k. rewrite <- Hsame. unfold Lru.touch. rewrite fmap_cons.
      cbn [fst]. rewrite elem_of_cons. split.
      * intros [->|Hk]; [exact Hin|]. now apply (filter_keys_subseteq key).
      * intros Hk. destruct (decide (k = key)) as [->|Hne]; [now left|right].
        apply list_elem_of_fmap in Hk as (p & -> & Hp).
        apply list_elem_of_fmap_2. now apply list_elem_of_filter.
    + intros k. split; [now left|]. intros [Hk| ->]; [exact Hk|].
      now apply Hsame.
  - pose proof (find_absent _ _ E) as Hnot.
    assert (Hnd' : NoDup (key :: (price_cache w).*1))
      by (apply NoDup_cons; now split).
    assert (Hlen : (length (key :: (price_cache w).*1) <= Lru.maxsize)%nat).
    { etransitivity; [|exact fits]. apply distinct_keys_bound; [exact Hnd'|].
      intros k Hk. apply elem_of_cons in Hk as [->|Hk]; [exact Hkey|].
      apply Hsub. now apply Hsame. }
    cbn [length] in Hlen. rewrite length_fmap in Hlen.
    assert (Hstore : Lru.store key
                       match requests_get svc key with
                       | HttpOk body => body
                       | RequestException => ∅
                       end (price_cache w)
                     = (key, match requests_get svc key with
                             | HttpOk body => body
                             | RequestException => ∅
                             end) :: price_cache w).
    { unfold Lru.store. apply take_ge. cbn [length]. lia. }
    rewrite Hstore. split; [split; [|split]|].
    + apply NoDup_app. split; [exact Hlog|]. split; [|apply NoDup_singleton].
      intros k Hk Hk'. apply list_elem_of_singleton in Hk'. subst k.
      apply Hnot. now apply Hsame.
    + exact Hnd'.
    + intros k. rewrite fmap_cons. cbn [fst].
      rewrite elem_of_cons, elem_of_app, list_elem_of_singleton, Hsame. tauto.
    + intros k. rewrite elem_of_app, list_elem_of_singleton. tauto.
Qed.

Lemma run_lookups_fetched_once (history : list (Services * str)) (w : World) :
  (forall k, k ∈ history.*2 -> k ∈ all_keys) ->
  http_log w ⊆ all_keys ->
  fetched_once w ->
  fetched_once (run_lookups history w)
  /\ forall k, k ∈ http_log (run_lookups history w)
               <-> k ∈ http_log w \/ k ∈ history.*2.
Proof.
  revert w. induction history as [|[svc key] rest IH]; intros w Hks Hsub Hf.
  - split; [exact Hf|]. intros k. rewrite fmap_nil.
    split; [now left|]. intros [H|H]; [exact H|]. now apply not_elem_of_nil in H.
  - assert (Hkey : key ∈ all_keys).
    { apply Hks. rewrite fmap_cons. apply elem_of_cons. now left. }
    destruct (lookup_fetched_once svc key w Hkey Hsub Hf) as [Hf1 Hlog1].
    unfold run_lookups. cbn [fold_left].
    destruct (IH (Webhook.get_cached_crypto_prices svc key w).1) as [Hf2 Hlog2].
    + intros k Hk. apply Hks. rewrite fmap_cons. apply elem_of_cons. now right.
    + intros k Hk. apply Hlog1 in Hk as [Hk| ->]; [now apply Hsub|exact Hkey].
    + exact Hf1.
    + split; [exact Hf2|]. intros k. fold (run_lookups rest
        (Webhook.get_cached_crypto_prices svc key w).1).
      rewrite Hlog2, Hlog1, fmap_cons. cbn [snd]. rewrite elem_of_cons. tauto.
Qed.

End WorkingSet.

(** X7. When a history of lookups uses at most 100 distinct keys, every
    one of them is fetched from the quote service exactly once: the log
    of GETs holds each looked-up key, and holds it once, however often
    and in whatever order the keys are looked up. *)
Theorem each_key_fetched_once (history : list (Services * str)) :
  (length (remove_dups (history.*2)) <= Lru.maxsize)%nat ->
  NoDup (http_log (run_lookups history initial_world))
  /\ forall k, k ∈ http_log (run_lookups history initial_world)
               <-> k ∈ history.*2.
Proof.
  intros Hfits.
  destruct (run_lookups_fetched_once (history.*2) Hfits history initial_world)
    as [(Hnd & _ & _) Hlog].
  - auto.
  - intros k Hk. now apply not_elem_of_nil in Hk.
  - repeat split; try constructor; cbn; intros Hk;
      now apply not_elem_of_nil in Hk.
  - split; [exact Hnd|]. intros k. rewrite Hlog. cbn.
    split; [|now right]. intros [Hk|Hk]; [|exact Hk].
    now apply not_elem_of_nil in Hk.
Qed.

Lemma each_key_fetched_once_witness :
  NoDup (http_log (run_lookups
                     [(bitcoin_service, lit "btc"); (failing_service, lit "eth");
                      (failing_service, lit "btc"); (bitcoin_service, lit "eth")]
                     initial_world)).
Proof.
  apply (each_key_fetched_once
           [(bitcoin_service, lit "btc"); (failing_service, lit "eth");
            (failing_service, lit "btc"); (bitcoin_service, lit "eth")]).
  vm_compute. lia.
Defined.

(** ** The price client: errors and letter case *)

Lemma price_loop_missing_usd (data : quotes) (crypto_ids prices : list str) :
  (exists identifier entry,
      In identifier crypto_ids /\
      data !! lower identifier = Some entry /\ entry !! lit "usd" = None) ->
  Webhook.price_loop data crypto_ids prices = None.
Proof.
  intros (identifier & entry & Hin & Hentry & Husd). revert prices.
  induction crypto_ids as [|i rest IH]; intros prices; [destruct Hin|].
  cbn [Webhook.price_loop].
  destruct (data !! lower i) as [e|] eqn:E.
  - destruct (e !! lit "usd") as [price|] eqn:Eu; [|reflexivity].
    destruct Hin as [->|Hin]; [congruence|now apply IH].
  - destruct Hin as [->|Hin]; [congruence|now apply IH].
Qed.

(** X8. When the body holds an entry without a "usd" number for one of
    the requested identifiers, the price client answers
    "Price lookup failed.", whatever the other identifiers would have
    given; the body stays cached all the same. *)
Theorem malformed_entry_fails_lookup (svc : Services) (crypto_ids : list str)
    (w w1 : World) (data : quotes) (identifier : str) (entry : gmap str Q) :
  Webhook.get_cached_crypto_prices svc (lower (join (lit ",") crypto_ids)) w
    = (w1, data) ->
  In identifier crypto_ids ->
  data !! lower identifier = Some entry ->
  entry !! lit "usd" = None ->
  Webhook.get_crypto_prices svc crypto_ids w = (w1, lit "Price lookup failed.")
  /\ Polling.get_crypto_prices svc crypto_ids w
     = (w1, lit "Price lookup failed.").
Proof.
  intros Hfetch Hin Hentry Husd.
  assert (H : Webhook.get_crypto_prices svc crypto_ids w
              = (w1, lit "Price lookup failed.")).
  { unfold Webhook.get_crypto_prices. rewrite Hfetch.
    rewrite price_loop_missing_usd; [reflexivity|]. now exists identifier, entry. }
  split; [exact H|].
  now rewrite <- (get_crypto_prices_variants_agree svc crypto_ids w) in H.
Qed.

Lemma malformed_entry_fails_lookup_witness :
  (Webhook.get_crypto_prices broken_service [lit "ethereum"; lit "Bitcoin"]
     initial_world).2 = lit "Price lookup failed.".
Proof.
  rewrite (proj1 (malformed_entry_fails_lookup broken_service
                    [lit "ethereum"; lit "Bitcoin"] initial_world _
                    broken_quote (lit "Bitcoin") ∅ eq_refl
                    (or_intror (or_introl eq_refl)) eq_refl eq_refl)).
  reflexivity.
Defined.

(** ** Replies and remote requests *)

Lemma get_cached_effects (svc : Services) (key : str) (w : World) :
  let w' := (Webhook.get_cached_crypto_prices svc key w).1 in
  sent w' = sent w /\ gemini_log w' = gemini_log w /\
  (http_log w' = http_log w \/ http_log w' = http_log w ++ [key]).
Proof.
  unfold Webhook.get_cached_crypto_prices.
  destruct (Lru.find key (price_cache w)); cbn; auto.
Qed.

Lemma get_crypto_prices_effects (svc : Services) (crypto_ids : list str)
    (w : World) :
  let w' := (Webhook.get_crypto_prices svc crypto_ids w).1 in
  sent w' = sent w /\ gemini_log w' = gemini_log w /\
  (http_log w' = http_log w \/
   http_log w' = http_log w ++ [lower (join (lit ",") crypto_ids)]).
Proof.
  pose proof (get_cached_effects svc (lower (join (lit ",") crypto_ids)) w) as H.
  unfold Webhook.get_crypto_prices.
  destruct (Webhook.get_cached_crypto_prices _ _ _) as [w1 data].
  now destruct (Webhook.price_loop _ _ _).
Qed.

Lemma ask_gemini_effects (svc : Services) (question : str) (w : World) :
  let w' := (Webhook.ask_gemini svc question w).1 in
  sent w' = sent w /\ http_log w' = http_log w /\
  price_cache w' = price_cache w /\
  (gemini_log w' = gemini_log w \/
   gemini_log w' = gemini_log w ++ [prompt_for question]).
Proof.
  unfold Webhook.ask_gemini.
  destruct (_ || _); [cbn; auto|].
  fold (prompt_for question).
  destruct (generate_content svc (prompt_for question)); cbn; auto.
Qed.

Lemma handle_message_effects (update : Update)
    (svc : Services) (w : World) :
  let w' := (Webhook.handle_message update svc w).1 in
  (exists response, sent w' = sent w ++ [response])
  /\ at_most_one_request w w'.
Proof.
  unfold Webhook.handle_message, at_most_one_request.
  destruct (contains (lit "price of") (lower (message_text update))).
  - match goal with
    | |- context [Webhook.get_crypto_prices svc ?ids w] =>
        pose proof (get_crypto_prices_effects svc ids w) as (Hs & Hg & Hh);
        destruct (Webhook.get_crypto_prices svc ids w) as [w1 response]
    end.
    cbn in *. rewrite Hs, Hg. split; [now eexists|].
    destruct Hh as [->| ->]; [now left|right; left; now eexists].
  - pose proof (ask_gemini_effects svc (lower (message_text update)) w)
      as (Hs & Hh & _ & Hg).
    destruct (Webhook.ask_gemini svc (lower (message_text update)) w)
      as [w1 response].
    cbn in *. rewrite Hs, Hh. split; [now eexists|].
    destruct Hg as [->| ->]; [now left|right; right; now eexists].
Qed.

(** X10. Handling one message sends exactly one reply and issues at
    most one remote request: one GET to the quote service, or one
    generation request, or none, never both. *)
Theorem handle_message_one_reply_one_request (update : Update)
    (svc : Services) (w : World) :
  let w' := (Webhook.handle_message update svc w).1 in
  (exists response, sent w' = sent w ++ [response])
  /\ at_most_one_request w w'.
Proof.
  unfold Webhook.handle_message, at_most_one_request.
  destruct (contains (lit "price of") (lower (message_text update))).
  - match goal with
    | |- context [Webhook.get_crypto_prices svc ?ids w] =>
        pose proof (get_crypto_prices_effects svc ids w) as (Hs & Hg & Hh);
        destruct (Webhook.get_crypto_prices svc ids w) as [w1 response]
    end.
    cbn in *. rewrite Hs, Hg. split; [now eexists|].
    destruct Hh as [->| ->]; [now left|right; left; now eexists].
  - pose proof (ask_gemini_effects svc (lower (message_text update)) w)
      as (Hs & Hh & _ & Hg).
    destruct (Webhook.ask_gemini svc (lower (message_text update)) w)
      as [w1 response].
    cbn in *. rewrite Hs, Hh. split; [now eexists|].
    destruct Hg as [->| ->]; [now left|right; right; now eexists].
Qed.

Lemma wrapper_replies_once (cfg : Config)
    (func : Update -> Services -> World -> World * unit)
    (update : Update) (now : Q) (svc : Services)
    (request_times : gmap Z (list Q)) (w : World) :
  replies_once func ->
  exists text,
    sent (Webhook.wrapper cfg func update now svc request_times w).1.2
    = sent w ++ [text].
Proof.
  intros Hfunc. destruct (Hfunc update svc w) as [text Htext].
  unfold Webhook.wrapper.
  destruct (request_times !! effective_user_id update) as [times|].
  - destruct (Z.of_nat _ >=? _); [now eexists|].
    destruct (func update svc w). now exists text.
  - destruct (func update svc w). now exists text.
Qed.

Lemma handle_message_replies_once : replies_once Webhook.handle_message.
Proof.
  intros update svc w. apply (handle_message_effects update svc w).
Qed.

Lemma polling_handle_message_replies_once : replies_once Polling.handle_message.
Proof.
  intros update svc w. unfold Polling.handle_message.
  destruct (contains (lit "price of") (lower (message_text update))).
  - rewrite get_crypto_prices_variants_agree.
    match goal with
    | |- context [Webhook.get_crypto_prices svc ?ids w] =>
        pose proof (get_crypto_prices_effects svc ids w) as (Hs & _);
        destruct (Webhook.get_crypto_prices svc ids w) as [w1 response]
    end.
    cbn in *. rewrite Hs. now eexists.
  - unfold Polling.ask_gemini. destruct (_ || _); [now eexists|].
    destruct (generate_content svc _); now eexists.
Qed.

(** X11. Behind the limiter, every handler of both variants answers an
    update with exactly one reply, be the update accepted or rejected;
    [start] and [help_command] change nothing else in the world: they
    issue no remote request and leave the price cache alone. *)
Theorem every_update_gets_one_reply (cfg : Config) (update : Update) (now : Q)
    (svc : Services) (request_times : gmap Z (list Q)) (w : World) :
  Forall
    (fun func =>
       exists text,
         sent (Webhook.wrapper cfg func update now svc request_times w).1.2
         = sent w ++ [text])
    [Webhook.start; Webhook.help_command; Webhook.handle_message;
     Polling.start; Polling.help_command; Polling.handle_message]
  /\
  Forall
    (fun func =>
       exists text,
         (Webhook.wrapper cfg func update now svc request_times w).1.2
         = reply_text text w)
    [Webhook.start; Webhook.help_command; Polling.start; Polling.help_command].
Proof.
  split.
  - repeat constructor; apply wrapper_replies_once;
      first [ exact handle_message_replies_once
            | exact polling_handle_message_replies_once
            | intros u s w0; now eexists ].
  - repeat constructor; unfold Webhook.wrapper;
      (destruct (request_times !! effective_user_id update) as [times|];
       [destruct (Z.of_nat _ >=? _)|]; now eexists).
Qed.

(** ** The router's splits *)

Lemma join_cons (sep x y : str) (l : list str) :
  join sep (x :: y :: l) = x ++ sep ++ join sep (y :: l).
Proof. reflexivity. Qed.

Lemma join_split_go (sep : str) (s : str) (skip : nat) :
  sep <> [] -> join sep (split_go sep skip s) = drop skip s.
Proof.
  intros Hne. revert skip. induction s as [|c s IH]; intros skip.
  - cbn [split_go join]. now rewrite drop_nil.
  - destruct skip as [|n]; cbn [split_go]; [|now rewrite IH].
    rewrite drop_0. destruct (starts_with sep (c :: s)) eqn:Hm.
    + pose proof (split_go_nonempty sep (length sep - 1) s) as Hnonempty.
      specialize (IH (length sep - 1)%nat).
      destruct (split_go sep (length sep - 1) s) as [|y l]; [congruence|].
      rewrite join_cons, IH. cbn [app].
      assert (Hd : drop (length sep) (c :: s) = drop (length sep - 1) s).
      { clear -Hne. destruct sep as [|a p]; [congruence|].
        cbn [length drop]. now rewrite ?Nat.sub_succ, ?Nat.sub_0_r. }
      rewrite <- Hd. symmetry. now apply starts_with_inv.
    + pose proof (split_go_nonempty sep 0 s) as Hnonempty.
      specialize (IH 0%nat). rewrite drop_0 in IH.
      destruct (split_go sep 0 s) as [|t ts]; [congruence|].
      destruct ts as [|y l]; [cbn [join] in *; now rewrite IH|].
      rewrite join_cons in *. cbn [app]. now rewrite IH.
Qed.

(** X13. The splits of the router lose nothing: the pieces of
    [text.split(sep)], joined again by [sep], give back the text, for
    "price of", for "," and for any other non-empty separator. *)
Theorem split_join_round_trip (sep s : str) :
  sep <> [] -> join sep (split sep s) = s.
Proof.
  intros Hne. unfold split. rewrite join_split_go by exact Hne. apply drop_0.
Qed.

Lemma split_join_round_trip_witness :
  join (lit "price of") (split (lit "price of") (lit "price of a, price of b"))
  = lit "price of a, price of b".
Proof. apply split_join_round_trip. discriminate. Defined.


(** * The limiter, the router and the assistant client on Python's data *)

(** ** Python's text: prefixes, occurrences and [split] *)

Section PyPrefix.

Lemma py_starts_with_app (p r : Py.str) : Py.starts_with p (p ++ r) = true.
Proof.
  induction p as [|a p IH]; simpl; [reflexivity|].
  rewrite IH, (proj2 (N.eqb_eq a a) eq_refl). reflexivity.
Qed.

Lemma py_starts_with_inv (p s : Py.str) :
  Py.starts_with p s = true -> s = p ++ drop (length p) s.
Proof.
  revert s. induction p as [|a p IH]; intros s H; simpl in *.
  - now rewrite drop_0.
  - destruct s as [|b s]; [discriminate|].
    apply andb_true_iff in H as [Hab Hps].
    apply N.eqb_eq in Hab. subst b. simpl. f_equal. now apply IH.
Qed.

Lemma py_starts_with_cons (a : N) (p : Py.str) (c : N) (s : Py.str) :
  Py.starts_with (a :: p) (c :: s) = true -> Py.starts_with p s = true.
Proof. simpl. intros H. now apply andb_true_iff in H as [_ H]. Qed.

Lemma py_starts_with_tail (p : Py.str) (c : N) (s : Py.str) :
  Py.starts_with p (c :: s) = true -> Py.starts_with (drop 1 p) s = true.
Proof.
  destruct p as [|a p]; [reflexivity|]. rewrite skipn_cons, drop_0.
  apply py_starts_with_cons.
Qed.

(** Of two prefixes of the same text, the shorter is a prefix of the
    longer. *)
Lemma py_starts_with_shorter (q p s : Py.str) :
  Py.starts_with p s = true -> Py.starts_with q s = true ->
  (length q <= length p)%nat -> Py.starts_with q p = true.
Proof.
  revert p s. induction q as [|a q IH]; intros p s Hp Hq Hlen; [reflexivity|].
  destruct p as [|b p]; simpl in Hlen; [lia|].
  destruct s as [|c s]; [discriminate|].
  simpl in Hp, Hq |- *.
  apply andb_true_iff in Hp as [Hbc Hp]. apply andb_true_iff in Hq as [Hac Hq].
  apply N.eqb_eq in Hbc, Hac. subst.
  rewrite (proj2 (N.eqb_eq c c) eq_refl). simpl.
  apply (IH p s); [assumption|assumption|lia].
Qed.

Lemma py_contains_occurs (sep s : Py.str) :
  Py.contains sep s = true <-> PyProps.occurs sep s.
Proof.
  split.
  - induction s as [|c s IH]; simpl; intros H.
    + rewrite orb_false_r in H. exists [], (drop (length sep) []).
      now apply py_starts_with_inv.
    + apply orb_true_iff in H as [H|H].
      * exists [], (drop (length sep) (c :: s)). now apply py_starts_with_inv.
      * destruct (IH H) as (pre & rest & ->). now exists (c :: pre), rest.
  - intros (pre & rest & ->). induction pre as [|c pre IH].
    + pose proof (py_starts_with_app sep rest) as H. cbn [app].
      destruct (sep ++ rest); cbn [Py.contains]; now rewrite H.
    + cbn [app Py.contains]. rewrite IH. apply orb_true_r.
Qed.

End PyPrefix.

Section PySplitLast.

Variable sep : Py.str.
Hypothesis sep_nonempty : sep <> [].
Hypothesis sep_unbordered : Py.unbordered sep = true.

Lemma py_sep_length : (0 < length sep)%nat.
Proof. destruct sep; [congruence|simpl; lia]. Qed.

Lemma py_no_overlap (d : nat) :
  (1 <= d < length sep)%nat -> Py.starts_with (drop d sep) sep = false.
Proof.
  intros Hd. unfold Py.unbordered in sep_unbordered.
  rewrite forallb_forall in sep_unbordered.
  specialize (sep_unbordered d).
  destruct (Py.starts_with (drop d sep) sep); [|reflexivity].
  assert (Hin : In d (seq 1 (length sep - 1))) by (apply in_seq; lia).
  specialize (sep_unbordered Hin). discriminate.
Qed.

Lemma py_inside_no_match (n : nat) (s : Py.str) :
  PyProps.inside sep (S n) s -> Py.starts_with sep s = false.
Proof.
  intros [Hz|[Hlt Hpre]]; [discriminate|].
  destruct (Py.starts_with sep s) eqn:E; [|reflexivity].
  assert (H : Py.starts_with (drop (length sep - S n) sep) sep = true).
  { apply (py_starts_with_shorter _ sep s); [assumption|assumption|].
    rewrite length_drop. lia. }
  rewrite py_no_overlap in H; [discriminate|lia].
Qed.

Lemma py_inside_step (n : nat) (c : N) (s : Py.str) :
  PyProps.inside sep (S n) (c :: s) -> PyProps.inside sep n s.
Proof.
  intros [Hz|[Hlt Hpre]]; [discriminate|].
  destruct n as [|n]; [now left|]. right. split; [lia|].
  destruct (lookup_lt_is_Some_2 sep (length sep - S (S n))) as [x Hx]; [lia|].
  rewrite (drop_S _ _ _ Hx) in Hpre.
  apply py_starts_with_cons in Hpre.
  replace (length sep - S n)%nat with (S (length sep - S (S n))) by lia.
  exact Hpre.
Qed.

Lemma py_inside_after_match (c : N) (s : Py.str) :
  Py.starts_with sep (c :: s) = true -> PyProps.inside sep (length sep - 1) s.
Proof.
  intros H. pose proof py_sep_length as Hlen.
  destruct (decide (length sep - 1 = 0)%nat) as [Hz|Hnz]; [now left|].
  right. split; [lia|].
  replace (length sep - (length sep - 1))%nat with 1%nat by lia.
  now apply py_starts_with_tail with c.
Qed.

Lemma py_after_last_no_match (c : N) (s : Py.str) :
  Py.starts_with sep (c :: s) = false ->
  Py.after_last sep (c :: s) = Py.after_last sep s.
Proof.
  intros H. cbn [Py.after_last]. rewrite H. now destruct (Py.after_last sep s).
Qed.

(** [split] against [after_last]: without an occurrence the text is
    the only piece; with one, the last piece is the suffix after the
    last occurrence. *)
Lemma py_split_go_after_last (s : Py.str) (skip : nat) :
  PyProps.inside sep skip s ->
  match Py.after_last sep s with
  | None => Py.split_go sep skip s = [drop skip s]
  | Some r => exists init, init <> [] /\ Py.split_go sep skip s = init ++ [r]
  end.
Proof.
  revert skip. induction s as [|c s IH]; intros skip Hin.
  - simpl. now rewrite drop_nil.
  - destruct skip as [|n].
    + cbn [Py.split_go]. destruct (Py.starts_with sep (c :: s)) eqn:Hm.
      * specialize (IH _ (py_inside_after_match _ _ Hm)).
        cbn [Py.after_last]. rewrite Hm.
        destruct (Py.after_last sep s) as [r|].
        -- destruct IH as (init & Hne & ->). exists ([] :: init). now split.
        -- rewrite IH. exists [[]]. split; [discriminate|].
           simpl. do 2 f_equal. pose proof py_sep_length as Hlen.
           replace (length sep) with (S (length sep - 1)) at 2 by lia.
           reflexivity.
      * rewrite (py_after_last_no_match _ _ Hm).
        specialize (IH 0%nat (or_introl eq_refl)).
        destruct (Py.after_last sep s) as [r|].
        -- destruct IH as (init & Hne & ->).
           destruct init as [|t init]; [congruence|].
           exists ((c :: t) :: init). now split.
        -- rewrite IH. now rewrite !drop_0.
    + cbn [Py.split_go].
      rewrite (py_after_last_no_match _ _ (py_inside_no_match _ _ Hin)).
      specialize (IH n (py_inside_step _ _ _ Hin)).
      destruct (Py.after_last sep s) as [r|]; exact IH.
Qed.

Lemma py_split_last_after_last (s r : Py.str) :
  Py.after_last sep s = Some r -> Py.last_item (Py.split sep s) = r.
Proof.
  intros H. pose proof (py_split_go_after_last s 0%nat (or_introl eq_refl)) as Hs.
  rewrite H in Hs. destruct Hs as (init & _ & Hs).
  unfold Py.last_item, Py.split. rewrite Hs. apply last_last.
Qed.

Lemma py_occurs_after_last (s : Py.str) :
  PyProps.occurs sep s -> Py.after_last sep s <> None.
Proof.
  intros (pre & rest & ->). induction pre as [|c pre IH].
  - simpl. destruct (sep ++ rest) as [|c s] eqn:E.
    + apply app_eq_nil in E as [E _]. now contradiction sep_nonempty.
    + cbn [Py.after_last]. destruct (Py.after_last sep s); [discriminate|].
      rewrite <- E, py_starts_with_app. discriminate.
  - simpl. destruct (Py.after_last sep (pre ++ sep ++ rest)); [discriminate|].
    now contradiction IH.
Qed.

Lemma py_after_last_is_last (s r : Py.str) :
  Py.after_last sep s = Some r -> exists pre, PyProps.last_occurrence sep s pre r.
Proof.
  revert r. induction s as [|c s IH]; intros r H; [discriminate|].
  cbn [Py.after_last] in H. destruct (Py.after_last sep s) as [r0|] eqn:E.
  - injection H as ->. destruct (IH _ eq_refl) as (pre & -> & Hmax).
    exists (c :: pre). split; [reflexivity|].
    intros [|c' p] rest' Heq; simpl; [lia|].
    simpl in Heq. injection Heq as <- Heq.
    specialize (Hmax _ _ Heq). lia.
  - destruct (Py.starts_with sep (c :: s)) eqn:Hm; [|discriminate].
    injection H as <-. exists []. split.
    + simpl. now apply py_starts_with_inv.
    + intros [|c' p] rest' Heq; simpl; [lia|].
      simpl in Heq. injection Heq as <- Heq.
      exfalso. apply (py_occurs_after_last s); [now exists p, rest'|exact E].
Qed.

Lemma py_last_occurrence_after_last (s pre rest : Py.str) :
  PyProps.last_occurrence sep s pre rest -> Py.after_last sep s = Some rest.
Proof.
  intros [Heq Hmax].
  destruct (Py.after_last sep s) as [r|] eqn:E.
  - destruct (py_after_last_is_last _ _ E) as (pre' & Heq' & Hmax').
    specialize (Hmax _ _ Heq'). specialize (Hmax' _ _ Heq).
    assert (Hlen : length pre = length pre') by lia.
    rewrite Heq in Heq'.
    apply app_inj_1 in Heq' as [_ Heq']; [|exact Hlen].
    apply app_inv_head in Heq'. now subst.
  - exfalso. apply (py_occurs_after_last s); [now exists pre, rest|exact E].
Qed.

End PySplitLast.

(** ** Python's text: [strip] around a split on commas *)

Section PyStripSplit.

Variable U : Py.Unicode.
Hypothesis comma_not_space : Py.isspace U 44 = false.

Local Abbreviation comma := (Py.lit ",").

Lemma py_split_go_nonempty (sep : Py.str) (skip : nat) (s : Py.str) :
  Py.split_go sep skip s <> [].
Proof.
  revert skip. induction s as [|c s IH]; intros skip; [discriminate|].
  destruct skip as [|n]; cbn [Py.split_go]; [|apply IH].
  destruct (Py.starts_with sep (c :: s)); [discriminate|].
  destruct (Py.split_go sep 0 s); discriminate.
Qed.

Lemma py_space_not_comma (c : N) : Py.isspace U c = true -> N.eqb 44 c = false.
Proof.
  intros H. destruct (N.eqb 44 c) eqn:E; [|reflexivity].
  apply N.eqb_eq in E. subst c. congruence.
Qed.

Lemma py_split_comma_cons (c : N) (s : Py.str) :
  N.eqb 44 c = false ->
  Py.split comma (c :: s) =
    match Py.split comma s with
    | t :: ts => (c :: t) :: ts
    | [] => [[c]]
    end.
Proof.
  intros H. unfold Py.split. change (Py.lit ",") with [44%N].
  cbn [Py.split_go Py.starts_with]. now rewrite H.
Qed.

Lemma py_split_comma_comma (s : Py.str) :
  Py.split comma (44%N :: s) = [] :: Py.split comma s.
Proof. reflexivity. Qed.

Lemma py_strip_space_cons (c : N) (t : Py.str) :
  Py.isspace U c = true -> Py.strip U (c :: t) = Py.strip U t.
Proof. intros H. unfold Py.strip. cbn [Py.lstrip]. now rewrite H. Qed.

Lemma py_rstrip_snoc (c : N) (t : Py.str) :
  Py.isspace U c = true -> Py.rstrip U (t ++ [c]) = Py.rstrip U t.
Proof.
  intros H. unfold Py.rstrip. rewrite rev_app_distr. cbn [rev app Py.lstrip].
  now rewrite H.
Qed.

Lemma py_rstrip_snoc_keep (c : N) (t : Py.str) :
  Py.isspace U c = false -> Py.rstrip U (t ++ [c]) = t ++ [c].
Proof.
  intros H. unfold Py.rstrip. rewrite rev_app_distr. cbn [rev app Py.lstrip].
  rewrite H. cbn [rev]. now rewrite rev_involutive.
Qed.

Lemma py_lstrip_snoc (c : N) (l : Py.str) :
  Py.isspace U c = true ->
  Py.lstrip U (l ++ [c]) =
    match Py.lstrip U l with
    | [] => []
    | _ :: _ => Py.lstrip U l ++ [c]
    end.
Proof.
  intros H. induction l as [|a l IH]; cbn [app Py.lstrip].
  - now rewrite H.
  - destruct (Py.isspace U a); [exact IH|reflexivity].
Qed.

Lemma py_strip_space_snoc (c : N) (l : Py.str) :
  Py.isspace U c = true -> Py.strip U (l ++ [c]) = Py.strip U l.
Proof.
  intros H. unfold Py.strip. rewrite (py_lstrip_snoc _ _ H).
  destruct (Py.lstrip U l) as [|a t] eqn:E; [reflexivity|].
  now rewrite py_rstrip_snoc.
Qed.

Lemma py_split_space_head (c : N) (s : Py.str) :
  Py.isspace U c = true ->
  map (Py.strip U) (Py.split comma (c :: s)) = map (Py.strip U) (Py.split comma s).
Proof.
  intros H. rewrite (py_split_comma_cons _ _ (py_space_not_comma _ H)).
  destruct (Py.split comma s) as [|t ts] eqn:E.
  - now apply py_split_go_nonempty in E.
  - cbn [map]. now rewrite py_strip_space_cons.
Qed.

Lemma py_split_comma_snoc (c : N) (s : Py.str) :
  N.eqb 44 c = false ->
  exists init l,
    Py.split comma s = init ++ [l] /\ Py.split comma (s ++ [c]) = init ++ [l ++ [c]].
Proof.
  intros H. induction s as [|a s (init & l & Hs & Hsc)].
  - exists [], []. split; [reflexivity|].
    cbn [app]. now rewrite (py_split_comma_cons _ _ H).
  - cbn [app]. destruct (N.eqb 44 a) eqn:Ea.
    + apply N.eqb_eq in Ea. subst a. rewrite !py_split_comma_comma.
      exists ([] :: init), l. now rewrite Hs, Hsc.
    + rewrite !(py_split_comma_cons _ _ Ea), Hs, Hsc.
      destruct init as [|t init].
      * exists [], (a :: l). now split.
      * exists ((a :: t) :: init), l. now split.
Qed.

Lemma py_split_space_last (c : N) (s : Py.str) :
  Py.isspace U c = true ->
  map (Py.strip U) (Py.split comma (s ++ [c])) = map (Py.strip U) (Py.split comma s).
Proof.
  intros H.
  destruct (py_split_comma_snoc c s (py_space_not_comma _ H)) as (init & l & -> & ->).
  rewrite !map_app. cbn [map]. now rewrite py_strip_space_snoc.
Qed.

Lemma py_split_lstrip (s : Py.str) :
  map (Py.strip U) (Py.split comma (Py.lstrip U s)) = map (Py.strip U) (Py.split comma s).
Proof.
  induction s as [|c s IH]; [reflexivity|]. cbn [Py.lstrip].
  destruct (Py.isspace U c) eqn:E; [|reflexivity].
  now rewrite IH, py_split_space_head.
Qed.

Lemma py_split_rstrip (s : Py.str) :
  map (Py.strip U) (Py.split comma (Py.rstrip U s)) = map (Py.strip U) (Py.split comma s).
Proof.
  induction s as [|c s IH] using rev_ind; [reflexivity|].
  destruct (Py.isspace U c) eqn:E.
  - now rewrite py_rstrip_snoc, IH, py_split_space_last.
  - now rewrite py_rstrip_snoc_keep.
Qed.

(** Stripping the whole text before splitting it on commas changes
    nothing once every piece is stripped. *)
Lemma py_split_strip (s : Py.str) :
  map (Py.strip U) (Py.split comma (Py.strip U s)) = map (Py.strip U) (Py.split comma s).
Proof. unfold Py.strip. now rewrite py_split_rstrip, py_split_lstrip. Qed.

Lemma py_names_of_strip (s : Py.str) :
  map (fun name => Py.str_lower U (Py.strip U name)) (Py.split (Py.lit ",") (Py.strip U s)) =
  map (fun name => Py.str_lower U (Py.strip U name)) (Py.split (Py.lit ",") s).
Proof.
  rewrite <- !(map_map (Py.strip U) (Py.str_lower U)). f_equal. apply py_split_strip.
Qed.

End PyStripSplit.

(** ** The message router on Python's text *)

Lemma py_price_of_nonempty : Py.lit "price of" <> [].
Proof. discriminate. Qed.

Lemma py_unbordered_price_of : Py.unbordered (Py.lit "price of") = true.
Proof. reflexivity. Qed.

(** C2. The router lowercases the text, whatever its code points.
    Either the lowercased text splits at the last occurrence of
    "price of" into [pre] and [rest], and the reply is what the price
    lookup client returns for the comma-separated pieces of [rest], each
    stripped and lowercased; or "price of" does not occur and the reply
    is what the assistant query client returns for the whole lowercased
    text.  The client's string is sent unchanged.  Of the Unicode tables
    only this is used: the comma is not whitespace. *)
Theorem handle_message_routes (U : Py.Unicode) (update : Py.Update)
    (svc : Py.Services) (w : Py.World) :
  Py.isspace U 44 = false ->
  let user_message := Py.str_lower U (Py.message_text update) in
  (exists pre rest,
      PyProps.last_occurrence (Py.lit "price of") user_message pre rest /\
      let crypto_names :=
        map (fun name => Py.str_lower U (Py.strip U name))
            (Py.split (Py.lit ",") rest) in
      WebhookPy.handle_message U update svc w =
        (Py.reply_text (WebhookPy.get_crypto_prices U svc crypto_names w).2
                       (WebhookPy.get_crypto_prices U svc crypto_names w).1,
         tt))
  \/
  (~ PyProps.occurs (Py.lit "price of") user_message /\
   WebhookPy.handle_message U update svc w =
     (Py.reply_text (WebhookPy.ask_gemini svc user_message w).2
                    (WebhookPy.ask_gemini svc user_message w).1, tt)).
Proof.
  intros Hcomma user_message. unfold WebhookPy.handle_message.
  fold user_message.
  destruct (Py.contains (Py.lit "price of") user_message) eqn:Hc.
  - left. apply py_contains_occurs in Hc.
    pose proof (py_occurs_after_last _ py_price_of_nonempty _ Hc) as Hal.
    destruct (Py.after_last (Py.lit "price of") user_message) as [rest|] eqn:E;
      [|congruence].
    destruct (py_after_last_is_last _ py_price_of_nonempty _ _ E)
      as [pre Hlast].
    exists pre, rest. split; [exact Hlast|].
    rewrite (py_split_last_after_last _ py_price_of_nonempty
               py_unbordered_price_of _ _ E).
    cbv zeta. rewrite (py_names_of_strip U Hcomma).
    now destruct (WebhookPy.get_crypto_prices _ _ _ _).
  - right. split.
    + intros Ho. apply py_contains_occurs in Ho. congruence.
    + now destruct (WebhookPy.ask_gemini _ _ _).
Qed.

Lemma handle_message_routes_witness :
  let user_message :=
    Py.str_lower PyInputs.ascii_tables (Py.message_text PyInputs.price_update) in
  (exists pre rest,
      PyProps.last_occurrence (Py.lit "price of") user_message pre rest /\
      let crypto_names :=
        map (fun name =>
               Py.str_lower PyInputs.ascii_tables
                 (Py.strip PyInputs.ascii_tables name))
            (Py.split (Py.lit ",") rest) in
      WebhookPy.handle_message PyInputs.ascii_tables PyInputs.price_update
        PyInputs.bitcoin_service Py.initial_world =
        (Py.reply_text
           (WebhookPy.get_crypto_prices PyInputs.ascii_tables
              PyInputs.bitcoin_service crypto_names Py.initial_world).2
           (WebhookPy.get_crypto_prices PyInputs.ascii_tables
              PyInputs.bitcoin_service crypto_names Py.initial_world).1,
         tt))
  \/
  (~ PyProps.occurs (Py.lit "price of") user_message /\
   WebhookPy.handle_message PyInputs.ascii_tables PyInputs.price_update
     PyInputs.bitcoin_service Py.initial_world =
     (Py.reply_text
        (WebhookPy.ask_gemini PyInputs.bitcoin_service user_message
           Py.initial_world).2
        (WebhookPy.ask_gemini PyInputs.bitcoin_service user_message
           Py.initial_world).1, tt)).
Proof.
  apply (handle_message_routes PyInputs.ascii_tables PyInputs.price_update
           PyInputs.bitcoin_service Py.initial_world).
  reflexivity.
Defined.

Example py_route_price_query (svc : Py.Services) (w : Py.World) :
  WebhookPy.handle_message PyInputs.ascii_tables PyInputs.price_update svc w =
  (Py.reply_text
     (WebhookPy.get_crypto_prices PyInputs.ascii_tables svc
        [Py.lit "bitcoin"; Py.lit "ethereum"] w).2
     (WebhookPy.get_crypto_prices PyInputs.ascii_tables svc
        [Py.lit "bitcoin"; Py.lit "ethereum"] w).1, tt).
Proof.
  unfold WebhookPy.handle_message.
  change (Py.str_lower _ (Py.message_text _))
    with (Py.lit "price of bitcoin, ethereum").
  change (Py.contains _ _) with true. cbv iota.
  change (map _ (Py.split _ _)) with [Py.lit "bitcoin"; Py.lit "ethereum"].
  now destruct (WebhookPy.get_crypto_prices _ _ _ _).
Qed.

Example py_route_general_query (svc : Py.Services) (w : Py.World) :
  WebhookPy.handle_message PyInputs.ascii_tables PyInputs.question_update svc w =
  (Py.reply_text
     (WebhookPy.ask_gemini svc (Py.lit "what is a smart contract") w).2
     (WebhookPy.ask_gemini svc (Py.lit "what is a smart contract") w).1, tt).
Proof.
  unfold WebhookPy.handle_message.
  change (Py.str_lower _ (Py.message_text _))
    with (Py.lit "what is a smart contract").
  change (Py.contains _ _) with false. cbv iota.
  now destruct (WebhookPy.ask_gemini _ _ _).
Qed.

(** The whole reply of the example: the price of the one identifier the
    quote service knows, as Python prints it. *)
Example py_price_reply :
  Py.sent (WebhookPy.handle_message PyInputs.ascii_tables PyInputs.price_update
             PyInputs.bitcoin_service Py.initial_world).1
  = [Py.lit "BITCOIN: $42000.50 USD"].
Proof. vm_compute. reflexivity. Qed.

(** ** The formatting of Python's numbers *)

Example py_format_2f_tie : Py.format_2f 0.125 = Py.lit "0.12".
Proof. vm_compute. reflexivity. Qed.

Example py_format_2f_inexact : Py.format_2f 2.675 = Py.lit "2.67".
Proof. vm_compute. reflexivity. Qed.

Example py_format_2f_negative_zero : Py.format_2f (-0) = Py.lit "-0.00".
Proof. vm_compute. reflexivity. Qed.

Example py_format_int_beyond_2_53 :
  Py.format_number (Py.Int (2 ^ 53 + 1)) = Some (Py.lit "9007199254740992.00").
Proof. vm_compute. reflexivity. Qed.

Example py_format_int_overflow : Py.format_number (Py.Int (10 ^ 400)) = None.
Proof. vm_compute. reflexivity. Qed.

(** ** The rate limiter on Python's floats *)

Lemma py_recent_requests_spec (cfg : Config) (current_time : float)
    (times : list float) (t : float) :
  In t (List.filter (PyProps.passes cfg current_time) times) <->
  In t times /\ PyProps.within_window cfg current_time t.
Proof. apply List.filter_In. Qed.

Lemma py_wrapper_variants_agree {R : Type} (cfg : Config)
    (func : Py.Update -> Py.Services -> Py.World -> Py.World * R)
    (update : Py.Update) (current_time : float) (svc : Py.Services)
    (request_times : gmap Z (list float)) (w : Py.World) :
  PollingPy.wrapper cfg func update current_time svc request_times w =
  WebhookPy.wrapper cfg func update current_time svc request_times w.
Proof. reflexivity. Qed.

Section PyWrapper.

Context {R : Type}.
Variable cfg : Config.
Variable func : Py.Update -> Py.Services -> Py.World -> Py.World * R.
Variables (update : Py.Update) (current_time : float) (svc : Py.Services).
Variables (request_times : gmap Z (list float)) (w : Py.World).

Local Abbreviation user_id := (Py.effective_user_id update).
Local Abbreviation result :=
  (WebhookPy.wrapper cfg func update current_time svc request_times w).

Lemma py_wrapper_absent :
  request_times !! user_id = None ->
  result =
    (<[user_id := [current_time]]> request_times,
     (func update svc w).1, Some (func update svc w).2).
Proof.
  intros H. unfold WebhookPy.wrapper. rewrite H.
  now destruct (func update svc w).
Qed.

Lemma py_wrapper_rejects (times : list float) :
  request_times !! user_id = Some times ->
  MAX_REQUESTS_PER_WINDOW cfg <= PyProps.recent_count cfg current_time times ->
  result =
    (request_times,
     Py.reply_text
       (Py.lit "Too many requests. Please wait before sending more messages.")
       w,
     None).
Proof.
  intros H Hmax. unfold WebhookPy.wrapper. rewrite H. cbv beta iota zeta.
  fold (PyProps.passes cfg current_time).
  fold (PyProps.recent_count cfg current_time times).
  destruct (Z.geb_spec (PyProps.recent_count cfg current_time times)
              (MAX_REQUESTS_PER_WINDOW cfg)) as [_|Hlt];
    [reflexivity|lia].
Qed.

Lemma py_wrapper_accepts (times : list float) :
  request_times !! user_id = Some times ->
  PyProps.recent_count cfg current_time times < MAX_REQUESTS_PER_WINDOW cfg ->
  result =
    (<[user_id := List.filter (PyProps.passes cfg current_time) times
                    ++ [current_time]]> request_times,
     (func update svc w).1, Some (func update svc w).2).
Proof.
  intros H Hmax. unfold WebhookPy.wrapper. rewrite H. cbv beta iota zeta.
  fold (PyProps.passes cfg current_time).
  fold (PyProps.recent_count cfg current_time times).
  destruct (Z.geb_spec (PyProps.recent_count cfg current_time times)
              (MAX_REQUESTS_PER_WINDOW cfg)) as [Hge|_]; [lia|].
  now destruct (func update svc w).
Qed.

Lemma py_wrapper_present (times : list float) :
  request_times !! user_id = Some times ->
  PyProps.limiter_as_claimed cfg func update current_time svc request_times w
    result.
Proof.
  intros H. unfold PyProps.limiter_as_claimed, PyProps.stored_times.
  rewrite H. cbn [default id].
  split; [intros t; apply py_recent_requests_spec|].
  fold (PyProps.recent_count cfg current_time times).
  destruct (Z.geb_spec (PyProps.recent_count cfg current_time times)
              (MAX_REQUESTS_PER_WINDOW cfg)) as [Hge|Hlt].
  - apply (py_wrapper_rejects times H). lia.
  - apply (py_wrapper_accepts times H). lia.
Qed.

Lemma py_wrapper_absent_open :
  request_times !! user_id = None ->
  0 < MAX_REQUESTS_PER_WINDOW cfg ->
  PyProps.limiter_as_claimed cfg func update current_time svc request_times w
    result.
Proof.
  intros H Hmax. rewrite (py_wrapper_absent H).
  unfold PyProps.limiter_as_claimed, PyProps.stored_times. rewrite H.
  cbn [default].
  split; [intros t; apply py_recent_requests_spec|].
  cbn [List.filter length app].
  destruct (Z.geb_spec (Z.of_nat 0) (MAX_REQUESTS_PER_WINDOW cfg)) as [Hge|_];
    [simpl in Hge; lia|reflexivity].
Qed.

Lemma py_wrapper_frame (other : Z) :
  other <> user_id -> result.1.1 !! other = request_times !! other.
Proof.
  intros Hne. unfold WebhookPy.wrapper.
  destruct (request_times !! user_id) as [times|] eqn:E.
  - destruct (Z.of_nat _ >=? _); [reflexivity|].
    destruct (func update svc w). cbn [fst].
    now rewrite lookup_insert_ne by congruence.
  - destruct (func update svc w). cbn [fst].
    now rewrite lookup_insert_ne by congruence.
Qed.

Lemma py_wrapper_capped :
  PyProps.capped cfg request_times -> PyProps.capped cfg result.1.1.
Proof.
  intros Hc.
  destruct (request_times !! user_id) as [times|] eqn:E.
  - destruct (Z_lt_le_dec (PyProps.recent_count cfg current_time times)
                          (MAX_REQUESTS_PER_WINDOW cfg)) as [Hlt|Hge].
    + rewrite (py_wrapper_accepts _ E Hlt). cbn [fst]. intros u l Hl.
      destruct (decide (user_id = u)) as [<-|Hne].
      * rewrite lookup_insert_eq in Hl. injection Hl as <-.
        unfold PyProps.recent_count in Hlt. rewrite length_app.
        cbn [length]. lia.
      * rewrite lookup_insert_ne in Hl by exact Hne. now apply Hc with u.
    + now rewrite (py_wrapper_rejects _ E Hge).
  - rewrite (py_wrapper_absent E).
    cbn [fst]. intros u l Hl.
    destruct (decide (user_id = u)) as [<-|Hne].
    + rewrite lookup_insert_eq in Hl. injection Hl as <-. cbn [length]. lia.
    + rewrite lookup_insert_ne in Hl by exact Hne. now apply Hc with u.
Qed.

End PyWrapper.

(** C1 (amended). For every user the map already holds, and for every
    user at all when MAX_REQUESTS_PER_WINDOW is at least 1, both
    variants of the limiter filter the stored timestamps to those whose
    float difference [now - t] is below RATE_LIMIT_WINDOW; with
    MAX_REQUESTS_PER_WINDOW or more of them the request is rejected and
    nothing is recorded; otherwise the filtered list followed by [now]
    is stored and the handler is called. *)
Theorem rate_limit_contract {R : Type} (cfg : Config)
    (func : Py.Update -> Py.Services -> Py.World -> Py.World * R)
    (update : Py.Update) (current_time : float) (svc : Py.Services)
    (request_times : gmap Z (list float)) (w : Py.World) :
  is_Some (request_times !! Py.effective_user_id update)
    \/ 0 < MAX_REQUESTS_PER_WINDOW cfg ->
  PyProps.limiter_as_claimed cfg func update current_time svc request_times w
    (WebhookPy.wrapper cfg func update current_time svc request_times w)
  /\
  PyProps.limiter_as_claimed cfg func update current_time svc request_times w
    (PollingPy.wrapper cfg func update current_time svc request_times w).
Proof.
  intros H.
  assert (Hw : PyProps.limiter_as_claimed cfg func update current_time svc
                 request_times w
                 (WebhookPy.wrapper cfg func update current_time svc
                    request_times w)).
  { destruct (request_times !! Py.effective_user_id update) as [times|] eqn:E.
    - now apply py_wrapper_present with times.
    - destruct H as [[? ?]|H]; [discriminate|].
      now apply py_wrapper_absent_open. }
  split; [exact Hw|].
  now rewrite <- (py_wrapper_variants_agree cfg func update current_time svc
                    request_times w) in Hw.
Qed.

Lemma rate_limit_contract_witness :
  PyProps.limiter_as_claimed default_config PyInputs.handler
    PyInputs.price_update 100 PyInputs.bitcoin_service PyInputs.seen_twice
    Py.initial_world
    (WebhookPy.wrapper default_config PyInputs.handler PyInputs.price_update
       100 PyInputs.bitcoin_service PyInputs.seen_twice Py.initial_world).
Proof.
  apply (rate_limit_contract default_config PyInputs.handler
           PyInputs.price_update 100 PyInputs.bitcoin_service
           PyInputs.seen_twice Py.initial_world).
  left. exists [50; 70]%float. reflexivity.
Defined.

(** The claim as first stated fails for a user the map does not hold
    when the limit is 0: no timestamp is stored, so the filtered count 0
    reaches the limit, yet the request is accepted and recorded. *)
Lemma rate_limit_first_request_not_as_claimed :
  ~ PyProps.limiter_as_claimed closed_config PyInputs.handler
      PyInputs.price_update 0 PyInputs.bitcoin_service ∅ Py.initial_world
      (WebhookPy.wrapper closed_config PyInputs.handler PyInputs.price_update
         0 PyInputs.bitcoin_service ∅ Py.initial_world)
  /\
  ~ PyProps.limiter_as_claimed closed_config
      (PollingPy.handle_message PyInputs.ascii_tables)
      PyInputs.price_update 0 PyInputs.bitcoin_service ∅ Py.initial_world
      (PollingPy.wrapper closed_config
         (PollingPy.handle_message PyInputs.ascii_tables)
         PyInputs.price_update 0 PyInputs.bitcoin_service ∅ Py.initial_world).
Proof.
  split; intros [_ H]; unfold PyProps.limiter_as_claimed in H;
    vm_compute in H; discriminate H.
Qed.

(** The subtraction is the processor's: a request at 0.05 is outside the
    window of 60 seconds at 60.05, because [60.05 - 0.05] rounds to 60;
    at 60.04 it is inside. *)
Example py_window_boundary :
  PyProps.passes strict_config 60.05 0.05 = false
  /\ PyProps.passes strict_config 60.04 0.05 = true
  /\ (WebhookPy.wrapper strict_config PyInputs.handler PyInputs.price_update
        60.05 PyInputs.bitcoin_service PyInputs.seen_early
        Py.initial_world).1.1
     = {[ 7 := [60.05%float] ]}
  /\ (WebhookPy.wrapper strict_config PyInputs.handler PyInputs.price_update
        60.04 PyInputs.bitcoin_service PyInputs.seen_early
        Py.initial_world).2
     = None.
Proof. vm_compute. repeat split. Qed.

(** ** The assistant query client on Python's text *)

(** C6. An empty question and a question of more than 1000 characters,
    counted as [len] counts them, in code points, are answered
    "Invalid query length." and leave the world, the log of generation
    requests included, as it was.  Every other question issues exactly
    one generation request, whose prompt is the fixed system instruction
    followed by the question, and is answered by the generated text, or
    by "Query processing failed." when the service raises. *)
Theorem ask_gemini_length_check (svc : Py.Services) (question : Py.str)
    (w : Py.World) :
  (question = [] \/ (1000 < length question)%nat ->
   WebhookPy.ask_gemini svc question w = (w, Py.lit "Invalid query length."))
  /\
  (question <> [] -> (length question <= 1000)%nat ->
   (WebhookPy.ask_gemini svc question w).1
     = Py.log_gemini (PyProps.prompt_for question) w
   /\ Py.gemini_log (WebhookPy.ask_gemini svc question w).1
      = Py.gemini_log w ++ [WebhookPy.system_prompt ++ Py.newline
                              ++ Py.newline ++ Py.lit "User: " ++ question]
   /\ (WebhookPy.ask_gemini svc question w).2
      = match Py.generate_content svc (PyProps.prompt_for question) with
        | Some text => text
        | None => Py.lit "Query processing failed."
        end).
Proof.
  unfold WebhookPy.ask_gemini. split.
  - intros [->|Hlong]; [reflexivity|].
    apply Nat.ltb_lt in Hlong. rewrite Hlong. now rewrite orb_true_r.
  - intros Hne Hlen.
    destruct question as [|c question]; [congruence|].
    apply Nat.ltb_ge in Hlen. rewrite Hlen. cbn [orb].
    fold (PyProps.prompt_for (c :: question)).
    now destruct (Py.generate_content svc (PyProps.prompt_for (c :: question))).
Qed.

Lemma ask_gemini_length_check_witness :
  WebhookPy.ask_gemini PyInputs.failing_service PyInputs.long_question
    Py.initial_world
    = (Py.initial_world, Py.lit "Invalid query length.")
  /\ Py.gemini_log (WebhookPy.ask_gemini PyInputs.failing_service
                      PyInputs.accented_question Py.initial_world).1
     = [PyProps.prompt_for PyInputs.accented_question].
Proof.
  split.
  - apply (proj1 (ask_gemini_length_check PyInputs.failing_service
                    PyInputs.long_question Py.initial_world)).
    right. unfold PyInputs.long_question. rewrite repeat_length. lia.
  - apply (proj2 (ask_gemini_length_check PyInputs.failing_service
                    PyInputs.accented_question Py.initial_world)).
    + discriminate.
    + unfold PyInputs.accented_question. rewrite repeat_length. lia.
Defined.

(** 600 accented letters are 600 characters, though 1200 bytes of UTF-8:
    the question is submitted. *)
Example py_accented_question_submitted :
  length PyInputs.accented_question = 600%nat
  /\ (WebhookPy.ask_gemini PyInputs.failing_service PyInputs.accented_question
        Py.initial_world).2
     = PyProps.prompt_for PyInputs.accented_question.
Proof. vm_compute. repeat split. Qed.

(** ** The rate limiter on Python's floats, over a history *)

Lemma py_filter_filter_weaker {A : Type} (f g : A -> bool) (l : list A) :
  (forall x, In x l -> f x = true -> g x = true) ->
  List.filter f (List.filter g l) = List.filter f l.
Proof.
  induction l as [|a l IH]; intros Himp; [reflexivity|]. cbn [List.filter].
  assert (IH' : List.filter f (List.filter g l) = List.filter f l).
  { apply IH. intros x Hx. apply Himp. now right. }
  destruct (g a) eqn:Eg; cbn [List.filter].
  - now rewrite IH'.
  - destruct (f a) eqn:Ef; [|exact IH'].
    apply (Himp a (or_introl eq_refl)) in Ef. congruence.
Qed.

Lemma age_test_monotone_check_sound (cfg : Config) (times : list float) :
  PyProps.age_test_monotone_check cfg times = true ->
  PyProps.age_test_monotone cfg times.
Proof.
  unfold PyProps.age_test_monotone_check. intros H a b t Ha Hb Ht Hle Hp.
  rewrite forallb_forall in H. specialize (H a Ha).
  rewrite forallb_forall in H. specialize (H b Hb).
  rewrite forallb_forall in H. specialize (H t Ht).
  rewrite Hle, Hp in H. exact H.
Qed.

Section PyWrapperTracks.

Context {R : Type}.
Variable cfg : Config.
Variable func : Py.Update -> Py.Services -> Py.World -> Py.World * R.
Variables (update : Py.Update) (current_time : float) (svc : Py.Services).
Variables (request_times : gmap Z (list float)) (w : Py.World).

Local Abbreviation user_id := (Py.effective_user_id update).
Local Abbreviation result :=
  (WebhookPy.wrapper cfg func update current_time svc request_times w).

(** One step of the bookkeeping: the stored times keep tracking the
    accepted requests of any user. *)
Lemma py_wrapper_tracks (u : Z) (all future : list float)
    (accepted : list float) :
  In current_time all ->
  Forall (fun b => (current_time <=? b)%float = true) future ->
  (forall x, In x future -> In x all) ->
  PyProps.age_test_monotone cfg all ->
  PyProps.tracks cfg u all (current_time :: future) request_times accepted ->
  PyProps.tracks cfg u all future result.1.1
    (accepted ++
     match result.2 with
     | Some _ => if decide (user_id = u) then [current_time] else []
     | None => []
     end).
Proof.
  intros Hc Hle Hfut Hmono [Htr Hall].
  assert (Hlater : forall now, In now future ->
            List.filter (PyProps.passes cfg now)
              (PyProps.stored_times request_times u)
            = List.filter (PyProps.passes cfg now) accepted).
  { intros now Hnow. apply Htr. now right. }
  rewrite List.Forall_forall in Hle.
  destruct (decide (user_id = u)) as [<-|Hne].
  - destruct (request_times !! user_id) as [times|] eqn:E.
    + destruct (Z_lt_le_dec (PyProps.recent_count cfg current_time times)
                            (MAX_REQUESTS_PER_WINDOW cfg)) as [Hlt|Hge].
      * rewrite (py_wrapper_accepts cfg func update current_time svc
                   request_times w _ E Hlt).
        cbn [fst snd]. unfold PyProps.tracks, PyProps.stored_times in *.
        rewrite lookup_insert_eq. rewrite E in *. cbn [default id] in *.
        split.
        -- intros now Hnow. rewrite !List.filter_app.
           rewrite py_filter_filter_weaker.
           ++ f_equal. now apply Hlater.
           ++ intros t Ht. apply (Hmono current_time now t);
                [exact Hc|now apply Hfut|now apply Hall|now apply Hle].
        -- intros t Ht. apply in_app_iff in Ht as [Ht|[<-|[]]]; [|exact Hc].
           apply List.filter_In in Ht as [Ht _]. now apply Hall.
      * rewrite (py_wrapper_rejects cfg func update current_time svc
                   request_times w _ E Hge).
        cbn [fst snd]. rewrite app_nil_r. now split.
    + rewrite (py_wrapper_absent cfg func update current_time svc
                 request_times w E).
      cbn [fst snd]. unfold PyProps.tracks, PyProps.stored_times in *.
      rewrite lookup_insert_eq. rewrite E in *. cbn [default id] in *.
      split.
      * intros now Hnow. rewrite List.filter_app.
        rewrite <- (Hlater now Hnow). reflexivity.
      * intros t [<-|[]]. exact Hc.
  - assert (Hsame : PyProps.stored_times result.1.1 u
                    = PyProps.stored_times request_times u).
    { unfold PyProps.stored_times.
      now rewrite py_wrapper_frame by congruence. }
    split.
    + intros now Hnow. rewrite Hsame.
      destruct result.2; rewrite app_nil_r; now apply Hlater.
    + intros t Ht. rewrite Hsame in Ht. now apply Hall.
Qed.

End PyWrapperTracks.

Section PyLimiterHistory.

Context {R : Type}.
Variable cfg : Config.
Variable func : Py.Update -> Py.Services -> Py.World -> Py.World * R.

Lemma py_run_wrapper_cons (update : Py.Update) (current_time : float)
    (svc : Py.Services) (rest : list (Py.Update * float * Py.Services))
    (st : gmap Z (list float) * Py.World) :
  PyProps.run_wrapper cfg func ((update, current_time, svc) :: rest) st =
  PyProps.run_wrapper cfg func rest
    (WebhookPy.wrapper cfg func update current_time svc st.1 st.2).1.
Proof. reflexivity. Qed.

Lemma py_run_wrapper_capped
    (history : list (Py.Update * float * Py.Services))
    (st : gmap Z (list float) * Py.World) :
  PyProps.capped cfg st.1 ->
  PyProps.capped cfg (PyProps.run_wrapper cfg func history st).1.
Proof.
  revert st. induction history as [|[[update current_time] svc] rest IH];
    intros st Hc; [exact Hc|].
  rewrite py_run_wrapper_cons. apply IH. now apply py_wrapper_capped.
Qed.

Lemma py_run_wrapper_tracks
    (history : list (Py.Update * float * Py.Services))
    (st : gmap Z (list float) * Py.World) (all future : list float)
    (u : Z) (accepted : list float) :
  PyProps.chronological (PyProps.readings history ++ future) ->
  (forall x, In x (PyProps.readings history ++ future) -> In x all) ->
  PyProps.age_test_monotone cfg all ->
  PyProps.tracks cfg u all (PyProps.readings history ++ future) st.1 accepted ->
  PyProps.tracks cfg u all future
    (PyProps.run_wrapper cfg func history st).1
    (accepted ++ PyProps.accepted_times cfg func history st u).
Proof.
  revert st accepted.
  induction history as [|[[update current_time] svc] rest IH];
    intros st accepted Hchron Hin Hmono Htr.
  - cbn [PyProps.accepted_times]. now rewrite app_nil_r.
  - change (PyProps.readings ((update, current_time, svc) :: rest) ++ future)
      with (current_time :: (PyProps.readings rest ++ future)) in *.
    apply StronglySorted_inv in Hchron as [Hrest Hle].
    rewrite py_run_wrapper_cons. cbn [PyProps.accepted_times].
    rewrite app_assoc. apply IH.
    + exact Hrest.
    + intros x Hx. apply Hin. now right.
    + exact Hmono.
    + apply py_wrapper_tracks.
      * apply Hin. now left.
      * exact Hle.
      * intros x Hx. apply Hin. now right.
      * exact Hmono.
      * exact Htr.
Qed.

Lemma py_tracks_initial (u : Z) (all future : list float) :
  PyProps.tracks cfg u all future ∅ [].
Proof.
  unfold PyProps.tracks, PyProps.stored_times. rewrite lookup_empty.
  split; [reflexivity|intros t []].
Qed.

Lemma py_capped_initial : PyProps.capped cfg ∅.
Proof. intros u l H. now rewrite lookup_empty in H. Qed.

Lemma py_recent_count_stored (request_times : gmap Z (list float)) (u : Z)
    (now : float) :
  PyProps.capped cfg request_times ->
  PyProps.recent_count cfg now (PyProps.stored_times request_times u)
    <= Z.max 1 (MAX_REQUESTS_PER_WINDOW cfg).
Proof.
  intros Hc. unfold PyProps.recent_count, PyProps.stored_times.
  pose proof (List.filter_length_le (PyProps.passes cfg now)
                (default [] (request_times !! u))) as Hle.
  destruct (request_times !! u) as [times|] eqn:E; cbn [default id] in *.
  - specialize (Hc _ _ E). lia.
  - cbn [length] in Hle. lia.
Qed.

End PyLimiterHistory.

(** X1. A limiter that started empty and has seen a history whose clock
    readings never decrease rejects a request exactly when the user has
    had MAX_REQUESTS_PER_WINDOW accepted requests whose timestamps still
    pass the filter at the time of the request (limit at least 1).  The
    clock readings are floats; that the test of the filter is monotone
    in the clock on them is stated as a premise. *)
Theorem limiter_rejects_exactly_at_limit {R : Type} (cfg : Config)
    (func : Py.Update -> Py.Services -> Py.World -> Py.World * R)
    (history : list (Py.Update * float * Py.Services))
    (update : Py.Update) (now : float) (svc : Py.Services) (w : Py.World) :
  1 <= MAX_REQUESTS_PER_WINDOW cfg ->
  PyProps.chronological (PyProps.readings history ++ [now]) ->
  PyProps.age_test_monotone cfg (PyProps.readings history ++ [now]) ->
  let st := PyProps.run_wrapper cfg func history (∅, w) in
  let accepted :=
    PyProps.accepted_times cfg func history (∅, w)
      (Py.effective_user_id update) in
  (WebhookPy.wrapper cfg func update now svc st.1 st.2).2 = None
  <-> MAX_REQUESTS_PER_WINDOW cfg <= PyProps.recent_count cfg now accepted.
Proof.
  intros Hmax Hchron Hmono st accepted.
  pose proof (py_run_wrapper_tracks cfg func history (∅, w)
                (PyProps.readings history ++ [now]) [now]
                (Py.effective_user_id update) [] Hchron (fun x H => H) Hmono
                (py_tracks_initial cfg _ _ _)) as [Htr _].
  specialize (Htr now (or_introl eq_refl)).
  cbn [app] in Htr. fold st accepted in Htr.
  unfold PyProps.recent_count. rewrite <- Htr. unfold PyProps.stored_times.
  destruct (st.1 !! Py.effective_user_id update) as [times|] eqn:E;
    cbn [default id].
  - destruct (Z_lt_le_dec (PyProps.recent_count cfg now times)
                          (MAX_REQUESTS_PER_WINDOW cfg)) as [Hlt|Hge].
    + rewrite (py_wrapper_accepts cfg func update now svc st.1 st.2 _ E Hlt).
      cbn [snd]. unfold PyProps.recent_count in Hlt.
      split; [discriminate|lia].
    + rewrite (py_wrapper_rejects cfg func update now svc st.1 st.2 _ E Hge).
      cbn [snd]. unfold PyProps.recent_count in Hge. now split.
  - rewrite (py_wrapper_absent cfg func update now svc st.1 st.2 E).
    cbn [snd List.filter length]. split; [discriminate|lia].
Qed.

Lemma limiter_rejects_exactly_at_limit_witness :
  (WebhookPy.wrapper strict_config PyInputs.handler PyInputs.price_update 10
     PyInputs.bitcoin_service
     (PyProps.run_wrapper strict_config PyInputs.handler
        [(PyInputs.price_update, 0%float, PyInputs.bitcoin_service)]
        (∅, Py.initial_world)).1
     (PyProps.run_wrapper strict_config PyInputs.handler
        [(PyInputs.price_update, 0%float, PyInputs.bitcoin_service)]
        (∅, Py.initial_world)).2).2
  = None.
Proof.
  apply (limiter_rejects_exactly_at_limit strict_config PyInputs.handler
           [(PyInputs.price_update, 0%float, PyInputs.bitcoin_service)]
           PyInputs.price_update 10 PyInputs.bitcoin_service
           Py.initial_world).
  - simpl. lia.
  - repeat constructor.
  - apply age_test_monotone_check_sound. vm_compute. reflexivity.
  - vm_compute. discriminate.
Defined.

(** X2. Under the same conditions, at no moment have more than
    MAX_REQUESTS_PER_WINDOW requests of one user been accepted with
    timestamps that pass the filter at that moment. *)
Theorem accepted_requests_bounded_per_window {R : Type} (cfg : Config)
    (func : Py.Update -> Py.Services -> Py.World -> Py.World * R)
    (history : list (Py.Update * float * Py.Services)) (now : float)
    (user_id : Z) (w : Py.World) :
  1 <= MAX_REQUESTS_PER_WINDOW cfg ->
  PyProps.chronological (PyProps.readings history ++ [now]) ->
  PyProps.age_test_monotone cfg (PyProps.readings history ++ [now]) ->
  PyProps.recent_count cfg now
    (PyProps.accepted_times cfg func history (∅, w) user_id)
    <= MAX_REQUESTS_PER_WINDOW cfg.
Proof.
  intros Hmax Hchron Hmono.
  pose proof (py_run_wrapper_tracks cfg func history (∅, w)
                (PyProps.readings history ++ [now]) [now] user_id []
                Hchron (fun x H => H) Hmono
                (py_tracks_initial cfg _ _ _)) as [Htr _].
  specialize (Htr now (or_introl eq_refl)).
  cbn [app] in Htr. unfold PyProps.recent_count. rewrite <- Htr.
  pose proof (py_recent_count_stored cfg
                (PyProps.run_wrapper cfg func history (∅, w)).1 user_id now
                (py_run_wrapper_capped cfg func history (∅, w)
                   (py_capped_initial cfg))) as Hb.
  unfold PyProps.recent_count in Hb. lia.
Qed.

Lemma accepted_requests_bounded_per_window_witness :
  PyProps.recent_count strict_config 20
    (PyProps.accepted_times strict_config PyInputs.handler
       [(PyInputs.price_update, 0%float, PyInputs.bitcoin_service);
        (PyInputs.price_update, 10%float, PyInputs.bitcoin_service);
        (PyInputs.price_update, 20%float, PyInputs.bitcoin_service)]
       (∅, Py.initial_world) 7)
  <= 1.
Proof.
  apply (accepted_requests_bounded_per_window strict_config PyInputs.handler
           _ 20 7 Py.initial_world).
  - simpl. lia.
  - repeat constructor.
  - apply age_test_monotone_check_sound. vm_compute. reflexivity.
Defined.

(** ** The router on Python's text: what reaches the clients *)

(** X12. A message whose lowercased text has no "price of" and is empty
    or longer than 1000 characters is answered "Invalid query length."
    and nothing else happens: no remote request, no change to the
    cache.  The length is that of the lowercased text, which is what the
    assistant client measures. *)
Theorem oversized_message_answered_locally (U : Py.Unicode)
    (update : Py.Update) (svc : Py.Services) (w : Py.World) :
  let user_message := Py.str_lower U (Py.message_text update) in
  Py.contains (Py.lit "price of") user_message = false ->
  user_message = [] \/ (1000 < length user_message)%nat ->
  WebhookPy.handle_message U update svc w
    = (Py.reply_text (Py.lit "Invalid query length.") w, tt)
  /\ PollingPy.handle_message U update svc w
     = (Py.reply_text (Py.lit "Invalid query length.") w, tt).
Proof.
  intros user_message Hroute Hsize.
  assert (Hcheck :
    (match user_message with [] => true | _ :: _ => false end
     || (1000 <? length user_message)%nat) = true).
  { destruct Hsize as [->|Hlong]; [reflexivity|].
    apply Nat.ltb_lt in Hlong. rewrite Hlong. apply orb_true_r. }
  unfold WebhookPy.handle_message, PollingPy.handle_message,
    WebhookPy.ask_gemini, PollingPy.ask_gemini.
  fold user_message. now rewrite Hroute, Hcheck.
Qed.

Lemma oversized_message_answered_locally_witness :
  WebhookPy.handle_message PyInputs.ascii_tables PyInputs.long_update
    PyInputs.failing_service Py.initial_world
  = (Py.reply_text (Py.lit "Invalid query length.") Py.initial_world, tt).
Proof.
  apply (oversized_message_answered_locally PyInputs.ascii_tables
           PyInputs.long_update PyInputs.failing_service Py.initial_world).
  - vm_compute. reflexivity.
  - right. vm_compute. lia.
Defined.

Section PyPieces.

Variable U : Py.Unicode.
Hypothesis comma_not_space : Py.isspace U 44 = false.

Lemma py_split_comma_no_comma (s piece : Py.str) :
  In piece (Py.split (Py.lit ",") s) -> ~ In 44%N piece.
Proof.
  revert piece. induction s as [|c s IH]; intros piece Hin.
  - destruct Hin as [<-|[]]. intros [].
  - destruct (N.eqb 44 c) eqn:E.
    + apply N.eqb_eq in E. subst c. rewrite py_split_comma_comma in Hin.
      destruct Hin as [<-|Hin]; [intros []|now apply IH].
    + rewrite (py_split_comma_cons _ _ E) in Hin.
      destruct (Py.split (Py.lit ",") s) as [|t ts] eqn:Es.
      * now apply py_split_go_nonempty in Es.
      * destruct Hin as [<-|Hin].
        -- intros [Hc|Hc].
           ++ subst c. rewrite N.eqb_refl in E. discriminate.
           ++ apply (IH t); [now left|exact Hc].
        -- apply IH. now right.
Qed.

Lemma py_In_lstrip (c : N) (s : Py.str) : In c (Py.lstrip U s) -> In c s.
Proof.
  induction s as [|a s IH]; [trivial|]. cbn [Py.lstrip].
  destruct (Py.isspace U a); [intros H; right; now apply IH|trivial].
Qed.

Lemma py_In_strip (c : N) (s : Py.str) : In c (Py.strip U s) -> In c s.
Proof.
  unfold Py.strip, Py.rstrip. intros H. apply in_rev in H.
  apply py_In_lstrip in H. apply in_rev in H. now apply py_In_lstrip.
Qed.

Lemma py_lstrip_lstrip (s : Py.str) :
  Py.lstrip U (Py.lstrip U s) = Py.lstrip U s.
Proof.
  induction s as [|c s IH]; [reflexivity|]. cbn [Py.lstrip].
  destruct (Py.isspace U c) eqn:E; [exact IH|]. cbn [Py.lstrip]. now rewrite E.
Qed.

Lemma py_rstrip_rstrip (s : Py.str) :
  Py.rstrip U (Py.rstrip U s) = Py.rstrip U s.
Proof. unfold Py.rstrip. now rewrite rev_involutive, py_lstrip_lstrip. Qed.

Lemma py_lstrip_head (s : Py.str) (c : N) (t : Py.str) :
  Py.lstrip U s = c :: t -> Py.isspace U c = false.
Proof.
  induction s as [|a s IH]; [discriminate|]. cbn [Py.lstrip].
  destruct (Py.isspace U a) eqn:E; [exact IH|].
  intros H. now injection H as <- _.
Qed.

Lemma py_lstrip_snoc_keep (c : N) (l : Py.str) :
  Py.isspace U c = false -> exists v, Py.lstrip U (l ++ [c]) = v ++ [c].
Proof.
  intros H. induction l as [|a l IH]; cbn [app Py.lstrip].
  - rewrite H. now exists [].
  - destruct (Py.isspace U a); [exact IH|]. now exists (a :: l).
Qed.

Lemma py_rstrip_head (c : N) (t : Py.str) :
  Py.isspace U c = false -> exists u, Py.rstrip U (c :: t) = c :: u.
Proof.
  intros H. unfold Py.rstrip. cbn [rev].
  destruct (py_lstrip_snoc_keep c (rev t) H) as [v ->].
  exists (rev v). now rewrite rev_app_distr.
Qed.

Lemma py_strip_strip (s : Py.str) :
  Py.strip U (Py.strip U s) = Py.strip U s.
Proof.
  unfold Py.strip at 2 3. destruct (Py.lstrip U s) as [|c t] eqn:E;
    [reflexivity|].
  pose proof (py_lstrip_head _ _ _ E) as Hc.
  destruct (py_rstrip_head c t Hc) as [u Hu].
  unfold Py.strip. rewrite Hu. cbn [Py.lstrip]. rewrite Hc, <- Hu.
  apply py_rstrip_rstrip.
Qed.

End PyPieces.

(** X14. For a price query the price client is called with at least
    one identifier, and every identifier it is called with is the
    lowercase of a piece of the text that has no comma in it and no
    whitespace at either end. *)
Theorem router_normalises_identifiers (U : Py.Unicode) (update : Py.Update)
    (svc : Py.Services) (w : Py.World) :
  Py.isspace U 44 = false ->
  Py.contains (Py.lit "price of") (Py.str_lower U (Py.message_text update))
    = true ->
  let pieces :=
    PyProps.dispatched_pieces U (Py.str_lower U (Py.message_text update)) in
  let crypto_names := map (Py.str_lower U) pieces in
  WebhookPy.handle_message U update svc w
    = (Py.reply_text (WebhookPy.get_crypto_prices U svc crypto_names w).2
                     (WebhookPy.get_crypto_prices U svc crypto_names w).1, tt)
  /\ crypto_names <> []
  /\ Forall (PyProps.trimmed U) pieces.
Proof.
  intros Hcomma Hroute pieces crypto_names. split; [|split].
  - unfold WebhookPy.handle_message. rewrite Hroute.
    rewrite <- (map_map (Py.strip U) (Py.str_lower U)).
    fold (PyProps.dispatched_pieces U
            (Py.str_lower U (Py.message_text update))).
    fold pieces. fold crypto_names.
    now destruct (WebhookPy.get_crypto_prices U svc crypto_names w).
  - unfold crypto_names, pieces, PyProps.dispatched_pieces. intros H.
    apply map_eq_nil in H. apply map_eq_nil in H.
    now apply py_split_go_nonempty in H.
  - unfold pieces, PyProps.dispatched_pieces. apply List.Forall_forall.
    intros name Hin.
    apply in_map_iff in Hin as (piece & <- & Hpiece).
    split.
    + intros H. apply py_In_strip in H.
      now apply (py_split_comma_no_comma _ _ Hpiece).
    + apply py_strip_strip.
Qed.

Lemma router_normalises_identifiers_witness :
  Forall (PyProps.trimmed PyInputs.ascii_tables)
    (PyProps.dispatched_pieces PyInputs.ascii_tables
       (Py.str_lower PyInputs.ascii_tables
          (Py.lit "Price of  Bitcoin , ETH,,solana "))).
Proof.
  apply (router_normalises_identifiers PyInputs.ascii_tables
           {| Py.effective_user_id := 7;
              Py.message_text := Py.lit "Price of  Bitcoin , ETH,,solana " |}
           PyInputs.failing_service Py.initial_world).
  - reflexivity.
  - vm_compute. reflexivity.
Defined.
